(** * Eighth-period signups: a shallow embedding of
      [intranet/apps/eighth/models.py]

    The Django models are embedded as records, the tables that the code
    reads and writes as lists of rows, and the methods as functions over
    them.  Foreign keys are embedded as the object they resolve to, and
    every comparison that the ORM performs on a foreign key (or between two
    model instances) is a comparison of primary keys, as in Django.
    [add_user] reads and writes the [EighthSignup] table and may raise: it
    lives in a state-and-exception monad over the database. *)

From Stdlib Require Import Ascii String OrdersEx OrdersFacts ZArith List Bool Lia
  Sorted Permutation.
Import ListNotations.
Open Scope Z_scope.

(** ** Exceptions *)

(** The classes of [eighth/exceptions.py] that [add_user] raises, under the
    names the code uses.  The module itself only declares them. *)
Inductive SignupException : Type :=
  | SignupForbidden
  | BlockLocked
  | ScheduledActivityCancelled
  | ActivityDeleted
  | ActivityFull
  | Presign
  | Sticky
  | OneADay.

(** What a call may raise: a signup exception, or an exception of the ORM
    ([Model.DoesNotExist] and [MultipleObjectsReturned] of [QuerySet.get],
    the assertion of a negative slice bound). *)
Inductive exn : Type :=
  | EighthException (e : SignupException)
  | DoesNotExist
  | MultipleObjectsReturned
  | AssertionError.

(** ** Models *)

Record User : Type := {
  user_pk : Z;
  is_eighth_admin : bool
}.

(** The part of the HTTP request that [add_user] looks at: [request.user]
    and whether ["force"] is a key of [request.GET]. *)
Record Request : Type := {
  request_user : User;
  force_in_GET : bool
}.

Record EighthRoom : Type := {
  room_pk : Z;
  room_capacity : Z
}.

(** [default=-1] of [EighthRoom.capacity]. *)
Definition default_room_capacity : Z := -1.

Record EighthActivity : Type := {
  activity_pk : Z;
  rooms : list EighthRoom;
  presign : bool;
  one_a_day : bool;
  sticky : bool;
  deleted : bool
}.

(** A date is the ordinal of its day; [block_letter] is a [CharField]. *)
Record EighthBlock : Type := {
  block_pk : Z;
  date : Z;
  block_letter : string;
  locked : bool
}.

Record EighthScheduledActivity : Type := {
  sa_pk : Z;
  block : EighthBlock;
  activity : EighthActivity;
  capacity : option Z;
  cancelled : bool
}.

Record EighthSignup : Type := {
  signup_pk : Z;
  user : User;
  scheduled_activity : EighthScheduledActivity;
  after_deadline : bool
}.

(** [datetime.datetime]: a day and a time of day. *)
Record datetime : Type := {
  dt_date : Z;
  hour : Z;
  minute : Z;
  second : Z;
  microsecond : Z
}.

(** The tables of the store that the modelled methods touch. *)
Record Database : Type := {
  eighthblock_table : list EighthBlock;
  eighthsignup_table : list EighthSignup
}.

(** Equality of model instances is equality of primary keys. *)
Definition user_eqb (a b : User) : bool := user_pk a =? user_pk b.
Definition block_eqb (a b : EighthBlock) : bool := block_pk a =? block_pk b.
Definition activity_eqb (a b : EighthActivity) : bool :=
  activity_pk a =? activity_pk b.
Definition sa_eqb (a b : EighthScheduledActivity) : bool := sa_pk a =? sa_pk b.

(** ** The state-and-exception monad of the ORM *)

Module Orm.

Inductive result (A : Type) : Type :=
  | Return (a : A)
  | Raise (e : exn).
Arguments Return {A} a.
Arguments Raise {A} e.

(** A computation runs on a database and leaves a database behind, also
    when it raises: Python exceptions roll nothing back. *)
Definition M (A : Type) : Type := Database -> result A * Database.

Definition ret {A} (a : A) : M A := fun db => (Return a, db).

Definition bind {A B} (m : M A) (k : A -> M B) : M B :=
  fun db =>
    match m db with
    | (Return a, db') => k a db'
    | (Raise e, db') => (Raise e, db')
    end.

Definition raise {A} (e : exn) : M A := fun db => (Raise e, db).

Definition gets {A} (f : Database -> A) : M A := fun db => (Return (f db), db).

Definition modify (f : Database -> Database) : M unit :=
  fun db => (Return tt, f db).

(** [if c: raise e] *)
Definition raise_if (c : bool) (e : exn) : M unit :=
  if c then raise e else ret tt.

(** [try: m  except DoesNotExist: h] *)
Definition try_except_DoesNotExist {A} (m h : M A) : M A :=
  fun db =>
    match m db with
    | (Raise DoesNotExist, db') => h db'
    | r => r
    end.

(** [QuerySet.get] on the rows a query selects. *)
Definition get {A} (rows : list A) : M A :=
  match rows with
  | [] => raise DoesNotExist
  | [r] => ret r
  | _ :: _ :: _ => raise MultipleObjectsReturned
  end.

End Orm.
Import Orm.

Declare Scope orm_scope.
Delimit Scope orm_scope with orm.
Notation "x <- m ;; k" := (bind m (fun x => k))
  (at level 61, m at next level, right associativity) : orm_scope.
Notation "m ;; k" := (bind m (fun _ => k))
  (at level 61, right associativity) : orm_scope.
Open Scope orm_scope.

(** ** [EighthActivity.capacity] *)

(** The loop [for room in all_rooms: capacity += room.capacity]. *)
Definition activity_capacity (a : EighthActivity) : Z :=
  let all_rooms := rooms a in
  if (length all_rooms =? 0)%nat then -1
  else fold_left (fun capacity room => capacity + room_capacity room) all_rooms 0.

(** ** [EighthScheduledActivity] *)

Definition get_true_capacity (self : EighthScheduledActivity) : Z :=
  match capacity self with
  | Some c => c
  | None => activity_capacity (activity self)
  end.

(** [self.eighthsignup_set]: the signups whose [scheduled_activity] is
    [self]. *)
Definition eighthsignup_set (self : EighthScheduledActivity) (db : Database)
  : list EighthSignup :=
  filter (fun s => sa_eqb (scheduled_activity s) self) (eighthsignup_table db).

(** [QuerySet.count] *)
Definition count {A} (rows : list A) : Z := Z.of_nat (length rows).

(** [QuerySet.exclude] *)
Definition exclude {A} (p : A -> bool) (rows : list A) : list A :=
  filter (fun r => negb (p r)) rows.

Definition is_full (self : EighthScheduledActivity) (db : Database) : bool :=
  let capacity := get_true_capacity self in
  if negb (capacity =? -1) then
    let num_signed_up := count (eighthsignup_set self db) in
    num_signed_up >=? capacity
  else false.

(** Chronological order of [datetime] values. *)
Definition datetime_key (t : datetime) : list Z :=
  [dt_date t; hour t; minute t; second t; microsecond t].

Fixpoint lex_compare (a b : list Z) : comparison :=
  match a, b with
  | [], [] => Eq
  | [], _ :: _ => Lt
  | _ :: _, [] => Gt
  | x :: a', y :: b' =>
      match x ?= y with
      | Eq => lex_compare a' b'
      | c => c
      end
  end.

Definition datetime_ltb (a b : datetime) : bool :=
  match lex_compare (datetime_key a) (datetime_key b) with
  | Lt => true
  | _ => false
  end.

(** [datetime.datetime.combine(d, datetime.time(0, 0, 0))] *)
Definition midnight (d : Z) : datetime :=
  {| dt_date := d; hour := 0; minute := 0; second := 0; microsecond := 0 |}.

(** [t - datetime.timedelta(days=n)] *)
Definition minus_days (t : datetime) (n : Z) : datetime :=
  {| dt_date := dt_date t - n; hour := hour t; minute := minute t;
     second := second t; microsecond := microsecond t |}.

(** [now] is the reading of the clock. *)
Definition is_too_early_to_signup (self : EighthScheduledActivity)
  (now : datetime) : bool :=
  let activity_date := midnight (date (block self)) in
  let presign_period := 2 in
  datetime_ltb now (minus_days activity_date presign_period).

(** *** The writes of [add_user] *)

(** The key of a new row: one more than the largest in use. *)
Definition next_pk (rows : list EighthSignup) : Z :=
  1 + fold_right Z.max 0 (map signup_pk rows).

(** [EighthSignup.objects.create(user=user, scheduled_activity=sa)] *)
Definition objects_create (usr : User) (sa : EighthScheduledActivity) : M unit :=
  modify (fun db =>
    {| eighthblock_table := eighthblock_table db;
       eighthsignup_table :=
         eighthsignup_table db ++
         [{| signup_pk := next_pk (eighthsignup_table db);
             user := usr;
             scheduled_activity := sa;
             after_deadline := false |}] |}).

(** [signup.save()] of a row that exists: the row of that key is
    overwritten. *)
Definition save (signup : EighthSignup) : M unit :=
  modify (fun db =>
    {| eighthblock_table := eighthblock_table db;
       eighthsignup_table :=
         map (fun r => if signup_pk r =? signup_pk signup then signup else r)
             (eighthsignup_table db) |}).

(** [existing_signup.scheduled_activity = sa] *)
Definition set_scheduled_activity (s : EighthSignup)
  (sa : EighthScheduledActivity) : EighthSignup :=
  {| signup_pk := signup_pk s; user := user s; scheduled_activity := sa;
     after_deadline := after_deadline s |}.

(** *** [add_user] *)

(** [force or (("force" in request.GET) and request.user.is_eighth_admin)] *)
Definition effective_force (request : option Request) (force : bool) : bool :=
  match request with
  | Some r => force || (force_in_GET r && is_eighth_admin (request_user r))
  | None => force
  end.

Definition add_user (self : EighthScheduledActivity) (usr : User)
  (request : option Request) (force : bool) (now : datetime) : M unit :=
  let force := effective_force request force in
  (if negb force then
     match request with
     | Some r =>
         raise_if (negb (user_eqb usr (request_user r))
                   && negb (is_eighth_admin (request_user r)))
                  (EighthException SignupForbidden)
     | None => ret tt
     end ;;
     raise_if (locked (block self)) (EighthException BlockLocked) ;;
     raise_if (cancelled self) (EighthException ScheduledActivityCancelled) ;;
     raise_if (deleted (activity self)) (EighthException ActivityDeleted) ;;
     full <- gets (is_full self) ;;
     raise_if full (EighthException ActivityFull) ;;
     (if presign (activity self) then
        raise_if (is_too_early_to_signup self now) (EighthException Presign)
      else ret tt) ;;
     in_a_stickie <- gets (fun db =>
       negb (count (filter (fun s => user_eqb (user s) usr
                                     && sticky (activity (scheduled_activity s)))
                           (eighthsignup_set self db)) =? 0)) ;;
     raise_if in_a_stickie (EighthException Sticky) ;;
     (if one_a_day (activity self) then
        in_act <- gets (fun db =>
          negb (count (filter (fun s =>
                   user_eqb (user s) usr
                   && (date (block (scheduled_activity s)) =? date (block self))
                   && activity_eqb (activity (scheduled_activity s)) (activity self))
                 (exclude (fun s => block_eqb (block (scheduled_activity s)) (block self))
                          (eighthsignup_set self db))) =? 0)) ;;
        raise_if in_act (EighthException OneADay)
      else ret tt)
   else ret tt) ;;
  try_except_DoesNotExist
    (rows <- gets (fun db =>
       filter (fun s => user_eqb (user s) usr
                        && block_eqb (block (scheduled_activity s)) (block self))
              (eighthsignup_table db)) ;;
     existing_signup <- get rows ;;
     save (set_scheduled_activity existing_signup self))
    (objects_create usr self).

(** *** Sequences of calls *)

(** The arguments of one call of [add_user], with the reading of the clock
    at that call. *)
Record Call : Type := {
  call_self : EighthScheduledActivity;
  call_user : User;
  call_request : option Request;
  call_force : bool;
  call_now : datetime
}.

(** The database a call leaves behind, whether it returns or raises. *)
Definition run_call (db : Database) (c : Call) : Database :=
  snd (add_user (call_self c) (call_user c) (call_request c) (call_force c)
                (call_now c) db).

Definition run_calls (calls : list Call) (db : Database) : Database :=
  fold_left run_call calls db.

(** *** The rules of [add_user], as a table *)

(** The conditions under which each [raise] of [add_user] is reached once
    the ones before it were not, in the order of the code. *)
Definition rules (self : EighthScheduledActivity) (usr : User)
  (request : option Request) (now : datetime) (db : Database)
  : list (bool * SignupException) :=
  [ (match request with
     | Some r => negb (user_eqb usr (request_user r))
                 && negb (is_eighth_admin (request_user r))
     | None => false
     end, SignupForbidden);
    (locked (block self), BlockLocked);
    (cancelled self, ScheduledActivityCancelled);
    (deleted (activity self), ActivityDeleted);
    (is_full self db, ActivityFull);
    (presign (activity self) && is_too_early_to_signup self now, Presign);
    (existsb (fun s => user_eqb (user s) usr
                       && sticky (activity (scheduled_activity s)))
             (eighthsignup_set self db), Sticky);
    (one_a_day (activity self)
     && existsb (fun s => negb (block_eqb (block (scheduled_activity s)) (block self))
                          && user_eqb (user s) usr
                          && (date (block (scheduled_activity s)) =? date (block self))
                          && activity_eqb (activity (scheduled_activity s)) (activity self))
                (eighthsignup_set self db), OneADay) ].

Definition first_violated (rs : list (bool * SignupException))
  : option SignupException :=
  option_map snd (find fst rs).

(** The signups of user [u] (a primary key) in block [b] (a primary key). *)
Definition signups_in_block (u b : Z) (rows : list EighthSignup)
  : list EighthSignup :=
  filter (fun s => (user_pk (user s) =? u)
                   && (block_pk (block (scheduled_activity s)) =? b)) rows.

(** ** [EighthBlock] and its manager *)

(** The order of [order_by("date", "block_letter")]. *)
Definition block_compare (a b : EighthBlock) : comparison :=
  match date a ?= date b with
  | Eq => String_as_OT.compare (block_letter a) (block_letter b)
  | c => c
  end.

Definition block_leb (a b : EighthBlock) : bool :=
  match block_compare a b with
  | Gt => false
  | _ => true
  end.

Section OrderBy.
Context {A : Type} (leb : A -> A -> bool).

Fixpoint insert_by (x : A) (l : list A) : list A :=
  match l with
  | [] => [x]
  | y :: l' => if leb x y then x :: l else y :: insert_by x l'
  end.

(** [QuerySet.order_by]: the rows, sorted. *)
Definition order_by (l : list A) : list A := fold_right insert_by [] l.
End OrderBy.

(** [block_letter__gt] and [block_letter__lt] *)
Definition letter_gtb (a b : string) : bool :=
  match String_as_OT.compare a b with
  | Gt => true
  | _ => false
  end.

Definition letter_ltb (a b : string) : bool :=
  match String_as_OT.compare a b with
  | Lt => true
  | _ => false
  end.

(** [rows[:stop]] on a query set, which refuses a negative bound. *)
Definition slice_to {A} (rows : list A) (stop : Z) : result (list A) :=
  if stop <? 0 then Raise AssertionError
  else Return (firstn (Z.to_nat stop) rows).

Definition result_map {A B} (f : A -> B) (r : result A) : result B :=
  match r with
  | Return a => Return (f a)
  | Raise e => Raise e
  end.

Definition next_blocks (self : EighthBlock) (quantity : Z) (db : Database)
  : result (list EighthBlock) :=
  let blocks :=
    filter (fun b => (date b >? date self)
                     || ((date b =? date self)
                         && letter_gtb (block_letter b) (block_letter self)))
           (order_by block_leb (eighthblock_table db)) in
  if quantity =? -1 then Return blocks
  else slice_to blocks (quantity + 1).

Definition previous_blocks (self : EighthBlock) (quantity : Z) (db : Database)
  : result (list EighthBlock) :=
  let blocks :=
    filter (fun b => (date b <? date self)
                     || ((date b =? date self)
                         && letter_ltb (block_letter b) (block_letter self)))
           (order_by (fun a b => block_leb b a) (eighthblock_table db)) in
  if quantity =? -1 then Return (rev blocks)
  else result_map (@rev _) (slice_to blocks (quantity + 1)).

(** [now.replace(hour=0, minute=0, second=0, microsecond=0)] *)
Definition replace_time_zero (now : datetime) : datetime :=
  {| dt_date := dt_date now; hour := 0; minute := 0; second := 0;
     microsecond := 0 |}.

(** [date__gte=now] with [now] a [datetime]: the lookup of a [DateField]
    turns the [datetime] into its date, and compares the dates. *)
Definition date__gte (d : Z) (now : datetime) : bool :=
  dt_date now <=? d.

(** [now] is the reading of [datetime.datetime.now()]. *)
Definition get_first_upcoming_block (now : datetime) (db : Database)
  : option EighthBlock :=
  let now := if hour now <? 17 then replace_time_zero now else now in
  match filter (fun b => date__gte (date b) now)
               (order_by block_leb (eighthblock_table db)) with
  | b :: _ => Some b
  | [] => None
  end.

(** The last statement of [add_user]: the [try] ... [except] that moves the
    signup the user holds in the block, or creates one. *)
Definition transfer_or_create (self : EighthScheduledActivity) (usr : User)
  : M unit :=
  try_except_DoesNotExist
    (rows <- gets (fun db =>
       filter (fun s => user_eqb (user s) usr
                        && block_eqb (block (scheduled_activity s)) (block self))
              (eighthsignup_table db)) ;;
     existing_signup <- get rows ;;
     save (set_scheduled_activity existing_signup self))
    (objects_create usr self).

(** The table [save] leaves behind. *)
Definition saved_rows (signup : EighthSignup) (rows : list EighthSignup)
  : list EighthSignup :=
  map (fun r => if signup_pk r =? signup_pk signup then signup else r) rows.

(** The row [objects_create] appends. *)
Definition created_row (usr : User) (sa : EighthScheduledActivity)
  (rows : list EighthSignup) : EighthSignup :=
  {| signup_pk := next_pk rows; user := usr; scheduled_activity := sa;
     after_deadline := false |}.

Definition with_signups (db : Database) (rows : list EighthSignup) : Database :=
  {| eighthblock_table := eighthblock_table db; eighthsignup_table := rows |}.

(** *** The invariant of the [EighthSignup] table *)

(** Primary keys identify rows. *)
Definition unique_keys (rows : list EighthSignup) : Prop :=
  NoDup (map signup_pk rows).

Definition one_per_block (rows : list EighthSignup) : Prop :=
  forall u b, (length (signups_in_block u b rows) <= 1)%nat.

Definition store_ok (db : Database) : Prop :=
  unique_keys (eighthsignup_table db) /\ one_per_block (eighthsignup_table db).

(** ** The first upcoming block, as a property *)

(** [a] is not after [b] in the order of blocks. *)
Definition block_le (a b : EighthBlock) : Prop := block_compare a b <> Gt.

(** [r] is the earliest block of the table dated [d] or later, or no block
    when the table has none. *)
Definition is_earliest_from (d : Z) (db : Database) (r : option EighthBlock)
  : Prop :=
  match r with
  | Some b =>
      In b (eighthblock_table db) /\ d <= date b
      /\ forall b', In b' (eighthblock_table db) -> d <= date b' ->
                    block_le b b'
  | None => forall b', In b' (eighthblock_table db) -> date b' < d
  end.

(** The sum of a list of capacities. *)
Definition sum_capacities (l : list Z) : Z := fold_right Z.add 0 l.

(** ** A school day *)

(** The objects of the scenarios: two students and a member of the eighth
    period office, the blocks A and B of 2024-01-10 and of the day after,
    and activities scheduled into them. *)
Module Scenario.

Definition alice : User := {| user_pk := 1; is_eighth_admin := false |}.
Definition bob : User := {| user_pk := 2; is_eighth_admin := false |}.
Definition office : User := {| user_pk := 3; is_eighth_admin := true |}.

Definition jan10 : Z := 738895.

Definition block_A : EighthBlock :=
  {| block_pk := 1; date := jan10; block_letter := "A"; locked := false |}.
Definition block_B : EighthBlock :=
  {| block_pk := 2; date := jan10; block_letter := "B"; locked := false |}.
Definition next_day_A : EighthBlock :=
  {| block_pk := 3; date := jan10 + 1; block_letter := "A"; locked := false |}.
Definition next_day_B : EighthBlock :=
  {| block_pk := 4; date := jan10 + 1; block_letter := "B"; locked := false |}.
Definition locked_block : EighthBlock :=
  {| block_pk := 5; date := jan10 + 2; block_letter := "A"; locked := true |}.

Definition room (pk cap : Z) : EighthRoom :=
  {| room_pk := pk; room_capacity := cap |}.

Definition chess_club : EighthActivity :=
  {| activity_pk := 1; rooms := []; presign := false; one_a_day := true;
     sticky := false; deleted := false |}.
Definition field_trip : EighthActivity :=
  {| activity_pk := 2; rooms := []; presign := false; one_a_day := false;
     sticky := true; deleted := false |}.
Definition study_hall : EighthActivity :=
  {| activity_pk := 3; rooms := []; presign := false; one_a_day := false;
     sticky := false; deleted := false |}.
Definition two_default_rooms : EighthActivity :=
  {| activity_pk := 4;
     rooms := [room 1 default_room_capacity; room 2 default_room_capacity];
     presign := false; one_a_day := false; sticky := false; deleted := false |}.

Definition schedule (pk : Z) (b : EighthBlock) (a : EighthActivity)
  : EighthScheduledActivity :=
  {| sa_pk := pk; block := b; activity := a; capacity := None;
     cancelled := false |}.

Definition chess_in_A := schedule 1 block_A chess_club.
Definition chess_in_B := schedule 2 block_B chess_club.
Definition trip_in_A := schedule 3 block_A field_trip.
Definition study_in_A := schedule 4 block_A study_hall.
Definition study_in_B := schedule 5 block_B study_hall.
Definition roomy_in_locked := schedule 6 locked_block two_default_rooms.
Definition roomy_in_A := schedule 7 block_A two_default_rooms.

(** The morning of 2024-01-10. *)
Definition morning : datetime :=
  {| dt_date := jan10; hour := 8; minute := 30; second := 0; microsecond := 0 |}.

Definition blocks_of_the_week : list EighthBlock :=
  [next_day_B; block_A; next_day_A; block_B].

Definition no_signups : Database :=
  {| eighthblock_table := blocks_of_the_week; eighthsignup_table := [] |}.

(** [user] signs up for [sa] on their own behalf, without [force]. *)
Definition signs_up (usr : User) (sa : EighthScheduledActivity) : Call :=
  {| call_self := sa; call_user := usr; call_request := None;
     call_force := false; call_now := morning |}.

(** The store after Alice signed up for study hall in block A. *)
Definition alice_in_study : Database :=
  run_call no_signups (signs_up alice study_in_A).

(** The store after Alice signed up for the sticky field trip in block A. *)
Definition alice_on_trip : Database :=
  run_call no_signups (signs_up alice trip_in_A).

(** The store after Alice signed up for chess club in block A. *)
Definition alice_in_chess : Database :=
  run_call no_signups (signs_up alice chess_in_A).

(** Calls of one day: Alice and Bob sign up for study hall in block A,
    Alice moves to chess club in block A and signs up for study hall in
    block B, Bob signs up for chess club in block B. *)
Definition busy_calls : list Call :=
  [signs_up alice study_in_A; signs_up bob study_in_A;
   signs_up alice chess_in_A; signs_up alice study_in_B;
   signs_up bob chess_in_B].

Definition busy_day : Database := run_calls busy_calls no_signups.

(** A store that holds, against the rule, two signups of Alice in block A,
    beside one of Bob. *)
Definition double_booked : Database :=
  {| eighthblock_table := blocks_of_the_week;
     eighthsignup_table :=
       [{| signup_pk := 1; user := alice; scheduled_activity := study_in_A;
           after_deadline := false |};
        {| signup_pk := 2; user := alice; scheduled_activity := chess_in_A;
           after_deadline := false |};
        {| signup_pk := 3; user := bob; scheduled_activity := study_in_A;
           after_deadline := false |}] |}.

End Scenario.

(** ** Sequences of calls that are not forced *)

(** The calls of a sequence that are not forced and that, when they are
    for the scheduled activity of key [sa_pk sa], see it with capacity
    [n]. *)
Definition unforced_calls_for (sa : EighthScheduledActivity) (n : Z)
  (calls : list Call) : Prop :=
  Forall (fun c =>
            effective_force (call_request c) (call_force c) = false
            /\ (sa_pk (call_self c) = sa_pk sa ->
                get_true_capacity (call_self c) = n)) calls.

(** ** Blocks around a block *)

(** [next_blocks] and [previous_blocks] are called with their default
    quantity, -1; [list(chain(prev, [self], next))] is the concatenation. *)
Definition get_surrounding_blocks (self : EighthBlock) (db : Database)
  : result (list EighthBlock) :=
  match next_blocks self (-1) db with
  | Raise e => Raise e
  | Return next =>
      match previous_blocks self (-1) db with
      | Raise e => Raise e
      | Return prev => Return (prev ++ [self] ++ next)
      end
  end.

(** [EighthBlockManager.get_current_blocks]: the [try] gets the first
    upcoming block and fetches it again by its [id]; [DoesNotExist] makes
    the method return the empty list, any other exception leaves it. *)
Definition get_current_blocks (now : datetime) : M (list EighthBlock) :=
  fun db =>
    match (first_upcoming_block <- gets (get_first_upcoming_block now) ;;
           match first_upcoming_block with
           | None => raise DoesNotExist
           | Some first =>
               rows <- gets (fun db =>
                 filter (fun b => block_pk b =? block_pk first)
                        (eighthblock_table db)) ;;
               get rows
           end) db with
    | (Raise DoesNotExist, db') => (Return [], db')
    | (Raise e, db') => (Raise e, db')
    | (Return block, db') => (get_surrounding_blocks block db', db')
    end.

(** The blocks before and after [self] that [get_surrounding_blocks]
    chains: the results of [previous_blocks] and [next_blocks] for the
    quantity -1. *)
Definition blocks_before (self : EighthBlock) (db : Database)
  : list EighthBlock :=
  rev (filter (fun b => (date b <? date self)
                        || ((date b =? date self)
                            && letter_ltb (block_letter b) (block_letter self)))
              (order_by (fun a b => block_leb b a) (eighthblock_table db))).

Definition blocks_after (self : EighthBlock) (db : Database)
  : list EighthBlock :=
  filter (fun b => (date b >? date self)
                   || ((date b =? date self)
                       && letter_gtb (block_letter b) (block_letter self)))
         (order_by block_leb (eighthblock_table db)).

(** A reading of the clock that [datetime] can hold: the fields of the
    time of day are not negative. *)
Definition time_of_day_ok (t : datetime) : Prop :=
  0 <= hour t /\ 0 <= minute t /\ 0 <= second t /\ 0 <= microsecond t.

(** [unique_together = (("date", "block_letter"),)] on a table of blocks,
    and the uniqueness of its primary key. *)
Definition unique_date_letter (blocks : list EighthBlock) : Prop :=
  forall a b, In a blocks -> In b blocks -> block_compare a b = Eq -> a = b.

Definition unique_block_keys (blocks : list EighthBlock) : Prop :=
  NoDup (map block_pk blocks).

(** ** [EighthSignup.validate_unique] *)

(** The method returns, or raises [ValidationError]. *)
Inductive validation : Type :=
  | Valid
  | ValidationError.

(** The call of the base class checks the [unique_together] of [Meta],
    [("user", "scheduled_activity")], against the other rows; the method
    then looks for another row of the user in the block. *)
Definition validate_unique (self : EighthSignup) (db : Database) : validation :=
  let others :=
    exclude (fun s => signup_pk s =? signup_pk self) (eighthsignup_table db) in
  if negb (count (filter (fun s =>
                     user_eqb (user s) (user self)
                     && sa_eqb (scheduled_activity s) (scheduled_activity self))
                   others) =? 0)
  then ValidationError
  else if negb (count (filter (fun s =>
                     user_eqb (user s) (user self)
                     && block_eqb (block (scheduled_activity s))
                                  (block (scheduled_activity self)))
                   others) =? 0)
  then ValidationError
  else Valid.

(** Rows for the same scheduled activity are in the same block: what the
    foreign key gives in the store. *)
Definition same_key_same_block (rows : list EighthSignup) : Prop :=
  forall s1 s2, In s1 rows -> In s2 rows ->
    sa_pk (scheduled_activity s1) = sa_pk (scheduled_activity s2) ->
    block_pk (block (scheduled_activity s1))
    = block_pk (block (scheduled_activity s2)).

(** Calls that name the same scheduled activity name it in the same
    block. *)
Definition calls_consistent (calls : list Call) : Prop :=
  forall c1 c2, In c1 calls -> In c2 calls ->
    sa_pk (call_self c1) = sa_pk (call_self c2) ->
    block_pk (block (call_self c1)) = block_pk (block (call_self c2)).

(** * [intranet/apps/bus/models.py] *)

Module Bus.

(** What the methods of this file may raise: the [DatabaseError] of a
    [save] with [update_fields] that finds no row, and the [IndexError] of
    an index into an empty list. *)
Inductive exn : Type :=
  | DatabaseError
  | IndexError.

Inductive outcome (A : Type) : Type :=
  | Done (a : A)
  | Failed (e : exn).
Arguments Done {A} a.
Arguments Failed {A} e.

(** ** [Route] *)

Record Route : Type := {
  route_pk : Z;
  route_name : string;
  space : string;
  bus_number : string;
  status : string
}.

(** [self.status = "o"; self.space = ""; self.save(update_fields=["status",
    "space"])]: the two columns of the rows of the key of [self] are
    written.  The result is the instance and the table. *)
Definition reset_status (self : Route) (table : list Route)
  : outcome (Route * list Route) :=
  let self := {| route_pk := route_pk self; route_name := route_name self;
                 space := ""; bus_number := bus_number self;
                 status := "o" |} in
  if existsb (fun r => route_pk r =? route_pk self) table then
    Done (self,
          map (fun r => if route_pk r =? route_pk self
                        then {| route_pk := route_pk r;
                                route_name := route_name r;
                                space := space self;
                                bus_number := bus_number r;
                                status := status self |}
                        else r) table)
  else Failed DatabaseError.

(** ** [BusAnnouncement] *)

Record BusAnnouncement : Type := {
  announcement_pk : Z;
  message : string
}.

(** [self.pk = self.id = 1; super().save()]: the row of key 1 is
    overwritten, or inserted when there is none. *)
Definition save (self : BusAnnouncement) (table : list BusAnnouncement)
  : list BusAnnouncement :=
  let self := {| announcement_pk := 1; message := message self |} in
  if existsb (fun r => announcement_pk r =? announcement_pk self) table then
    map (fun r => if announcement_pk r =? announcement_pk self then self else r)
        table
  else table ++ [self].

(** [cls.objects.first()]: the row of the least key. *)
Definition first (table : list BusAnnouncement) : option BusAnnouncement :=
  match order_by (fun a b => announcement_pk a <=? announcement_pk b) table with
  | a :: _ => Some a
  | [] => None
  end.

(** [cls.objects.create()]: a new instance, whose [message] is the empty
    default, is saved.  It is reached on the empty table only. *)
Definition create (table : list BusAnnouncement)
  : BusAnnouncement * list BusAnnouncement :=
  let obj := {| announcement_pk := 1; message := "" |} in
  (obj, save obj table).

(** [cls.objects.first() or cls.objects.create()]: a model instance is
    true. *)
Definition object (table : list BusAnnouncement)
  : BusAnnouncement * list BusAnnouncement :=
  match first table with
  | Some a => (a, table)
  | None => create table
  end.

(** ** [BusTableParser] *)

(** Characters are the code points below 256; [str.isspace] on them. *)
Definition isspace (c : Ascii.ascii) : bool :=
  let n := Z.of_N (Ascii.N_of_ascii c) in
  ((9 <=? n) && (n <=? 13)) || ((28 <=? n) && (n <=? 32))
  || (n =? 133) || (n =? 160).

(** [str.split()]: the maximal runs of characters that are not
    whitespace; [word] is the run being read. *)
Fixpoint split_from (s word : string) : list string :=
  match s with
  | EmptyString =>
      match word with
      | EmptyString => []
      | _ => [word]
      end
  | String c s' =>
      if isspace c then
        match word with
        | EmptyString => split_from s' EmptyString
        | _ => word :: split_from s' EmptyString
        end
      else split_from s' (word ++ String c EmptyString)
  end.

Definition split (s : string) : list string := split_from s EmptyString.

Record BusTableParser : Type := {
  data : list string;
  capture : bool
}.

(** [__init__] *)
Definition init : BusTableParser := {| data := []; capture := false |}.

Definition handle_starttag (self : BusTableParser) (tag : string)
  (attrs : list (string * option string)) : BusTableParser :=
  if String.eqb tag "td" then {| data := data self; capture := true |}
  else self.

Definition handle_endtag (self : BusTableParser) (tag : string)
  : BusTableParser :=
  if String.eqb tag "td" then {| data := data self; capture := false |}
  else self.

(** [self.data.append(data.split()[0])] *)
Definition handle_data (self : BusTableParser) (d : string)
  : outcome BusTableParser :=
  if capture self && String.prefix "JT-" d then
    match split d with
    | w :: _ => Done {| data := data self ++ [w]; capture := capture self |}
    | [] => Failed IndexError
    end
  else Done self.

(** The calls that the base class makes on the handlers while it reads a
    document. *)
Inductive callback : Type :=
  | Starttag (tag : string) (attrs : list (string * option string))
  | Endtag (tag : string)
  | Data (d : string).

Definition handle (self : BusTableParser) (c : callback)
  : outcome BusTableParser :=
  match c with
  | Starttag tag attrs => Done (handle_starttag self tag attrs)
  | Endtag tag => Done (handle_endtag self tag)
  | Data d => handle_data self d
  end.

Fixpoint handle_all (self : BusTableParser) (cs : list callback)
  : outcome BusTableParser :=
  match cs with
  | [] => Done self
  | c :: cs' =>
      match handle self c with
      | Done self' => handle_all self' cs'
      | Failed e => Failed e
      end
  end.

(** A string without whitespace. *)
Fixpoint no_space (s : string) : bool :=
  match s with
  | EmptyString => true
  | String c s' => negb (isspace c) && no_space s'
  end.

Definition is_data (c : callback) : bool :=
  match c with
  | Data _ => true
  | _ => false
  end.

Definition opens_cell (c : callback) : bool :=
  match c with
  | Starttag tag _ => String.eqb tag "td"
  | _ => false
  end.

End Bus.

(** * Properties *)

(** ** Query sets *)

Lemma count_filter_existsb {A} (p : A -> bool) (l : list A) :
  negb (count (filter p l) =? 0) = existsb p l.
Proof.
  unfold count.
  induction l as [|x l IH]; simpl; [reflexivity|].
  destruct (p x); simpl; [|exact IH].
  destruct (Z.eqb_spec (Z.of_nat (S (length (filter p l)))) 0); [lia|reflexivity].
Qed.

Lemma filter_exclude {A} (p q : A -> bool) (l : list A) :
  filter p (exclude q l) = filter (fun r => negb (q r) && p r) l.
Proof.
  unfold exclude.
  induction l as [|x l IH]; simpl; [reflexivity|].
  destruct (q x); simpl; [exact IH|].
  destruct (p x); simpl; congruence.
Qed.

Lemma existsb_ext_eq {A} (p q : A -> bool) (l : list A) :
  (forall x, p x = q x) -> existsb p l = existsb q l.
Proof.
  intros E. induction l as [|x l IH]; simpl; [reflexivity|].
  now rewrite E, IH.
Qed.

(** ** The shape of [add_user] *)

Lemma transfer_or_create_eq self usr db :
  transfer_or_create self usr db =
  match signups_in_block (user_pk usr) (block_pk (block self))
                         (eighthsignup_table db) with
  | [] => (Return tt,
           with_signups db (eighthsignup_table db
                            ++ [created_row usr self (eighthsignup_table db)]))
  | [e] => (Return tt,
            with_signups db (saved_rows (set_scheduled_activity e self)
                                        (eighthsignup_table db)))
  | _ :: _ :: _ => (Raise MultipleObjectsReturned, db)
  end.
Proof.
  unfold transfer_or_create, try_except_DoesNotExist, bind, gets.
  change (filter (fun s => user_eqb (user s) usr
                           && block_eqb (block (scheduled_activity s)) (block self))
                 (eighthsignup_table db))
    with (signups_in_block (user_pk usr) (block_pk (block self))
                           (eighthsignup_table db)).
  destruct (signups_in_block _ _ _) as [|e [|e' rest]]; reflexivity.
Qed.

Lemma add_user_eq self usr request force now db :
  add_user self usr request force now db =
  if effective_force request force then transfer_or_create self usr db
  else match first_violated (rules self usr request now db) with
       | Some e => (Raise (EighthException e), db)
       | None => transfer_or_create self usr db
       end.
Proof.
  unfold add_user. fold (transfer_or_create self usr).
  destruct (effective_force request force); [reflexivity|].
  cbn [negb].
  unfold first_violated, rules. cbn [find fst snd option_map].
  unfold bind at 1.
  assert (Hreq :
    forall k : M unit,
      bind (match request with
            | Some r => raise_if (negb (user_eqb usr (request_user r))
                                  && negb (is_eighth_admin (request_user r)))
                                 (EighthException SignupForbidden)
            | None => ret tt
            end) (fun _ => k) db =
      if match request with
         | Some r => negb (user_eqb usr (request_user r))
                     && negb (is_eighth_admin (request_user r))
         | None => false
         end
      then (Raise (EighthException SignupForbidden), db) else k db).
  { intros k. destruct request as [r|]; [|reflexivity].
    unfold bind, raise_if.
    destruct (negb (user_eqb usr (request_user r))
              && negb (is_eighth_admin (request_user r))); reflexivity. }
  rewrite Hreq. clear Hreq.
  destruct (match request with Some _ => _ | None => false end); [reflexivity|].
  unfold bind, raise_if, gets, raise, ret.
  destruct (locked (block self)); [reflexivity|].
  destruct (cancelled self); [reflexivity|].
  destruct (deleted (activity self)); [reflexivity|].
  destruct (is_full self db); [reflexivity|].
  assert (Hone : forall d,
    negb (count (filter (fun s =>
                   user_eqb (user s) usr
                   && (date (block (scheduled_activity s)) =? date (block self))
                   && activity_eqb (activity (scheduled_activity s)) (activity self))
                 (exclude (fun s => block_eqb (block (scheduled_activity s)) (block self))
                          (eighthsignup_set self d))) =? 0) =
    existsb (fun s => negb (block_eqb (block (scheduled_activity s)) (block self))
                      && user_eqb (user s) usr
                      && (date (block (scheduled_activity s)) =? date (block self))
                      && activity_eqb (activity (scheduled_activity s)) (activity self))
            (eighthsignup_set self d)).
  { intros d. rewrite filter_exclude, count_filter_existsb.
    apply existsb_ext_eq. intros s.
    now rewrite !andb_assoc. }
  destruct (presign (activity self)); cbn [andb];
    [destruct (is_too_early_to_signup self now); [reflexivity|] |];
    cbv beta iota; rewrite count_filter_existsb;
    (destruct (existsb _ (eighthsignup_set self db)); [reflexivity|]);
    (destruct (one_a_day (activity self)); cbn [andb]; [|reflexivity]);
    cbv beta iota; rewrite Hone;
    destruct (existsb _ (eighthsignup_set self db)); reflexivity.
Qed.

(** ** One signup per user and block *)

Lemma next_pk_fresh rows s : In s rows -> signup_pk s < next_pk rows.
Proof.
  unfold next_pk. induction rows as [|r rows IH]; cbn [map fold_right In];
    [tauto|].
  intros [->|H]; [|specialize (IH H)]; lia.
Qed.

Lemma signups_in_block_app u b l1 l2 :
  signups_in_block u b (l1 ++ l2) =
  signups_in_block u b l1 ++ signups_in_block u b l2.
Proof. apply filter_app. Qed.

Lemma signups_in_block_In u b rows s :
  In s (signups_in_block u b rows) <->
  In s rows /\ user_pk (user s) = u
  /\ block_pk (block (scheduled_activity s)) = b.
Proof.
  unfold signups_in_block. rewrite filter_In, andb_true_iff, !Z.eqb_eq.
  tauto.
Qed.

Lemma saved_rows_other signup rows :
  (forall r, In r rows -> signup_pk r <> signup_pk signup) ->
  saved_rows signup rows = rows.
Proof.
  unfold saved_rows. induction rows as [|r rows IH]; simpl; [reflexivity|].
  intros H. rewrite IH by auto.
  destruct (Z.eqb_spec (signup_pk r) (signup_pk signup)) as [E|_];
    [exfalso; apply (H r); auto|reflexivity].
Qed.

Lemma saved_rows_split e e' l1 l2 :
  unique_keys (l1 ++ e :: l2) -> signup_pk e' = signup_pk e ->
  saved_rows e' (l1 ++ e :: l2) = l1 ++ e' :: l2.
Proof.
  unfold unique_keys. intros Hnd Hpk.
  rewrite map_app in Hnd. simpl in Hnd.
  pose proof (NoDup_remove_2 _ _ _ Hnd) as Hnotin.
  assert (Hl : forall l, (forall r, In r l -> In (signup_pk r) (map signup_pk l1 ++ map signup_pk l2)) ->
                         saved_rows e' l = l).
  { intros l Hin. apply saved_rows_other. intros r Hr E.
    apply Hnotin. rewrite <- Hpk, <- E. auto. }
  unfold saved_rows in *. rewrite map_app. simpl.
  rewrite Hl, Hl, Hpk, Z.eqb_refl; [reflexivity| |].
  - intros r Hr. apply in_or_app. right. now apply in_map.
  - intros r Hr. apply in_or_app. left. now apply in_map.
Qed.

Lemma saved_rows_keys e' rows :
  map signup_pk (saved_rows e' rows) = map signup_pk rows.
Proof.
  unfold saved_rows. rewrite map_map. apply map_ext. intros r.
  destruct (Z.eqb_spec (signup_pk r) (signup_pk e')); congruence.
Qed.

Lemma created_ok usr self rows :
  signups_in_block (user_pk usr) (block_pk (block self)) rows = [] ->
  unique_keys rows -> one_per_block rows ->
  unique_keys (rows ++ [created_row usr self rows])
  /\ one_per_block (rows ++ [created_row usr self rows]).
Proof.
  intros Hnone Hk H1. split.
  - unfold unique_keys in *. rewrite map_app. simpl.
    apply NoDup_app; [exact Hk|repeat constructor; simpl; tauto|].
    intros k Hin [<-|[]].
    apply in_map_iff in Hin. destruct Hin as (s & Hs & Hin).
    apply next_pk_fresh in Hin. simpl in Hs. lia.
  - intros u b. rewrite signups_in_block_app, length_app.
    specialize (H1 u b). unfold signups_in_block at 2. simpl.
    destruct (Z.eqb_spec (user_pk usr) u) as [<-|_]; simpl; [|lia].
    destruct (Z.eqb_spec (block_pk (block self)) b) as [<-|_]; simpl; [|lia].
    rewrite Hnone. simpl. lia.
Qed.

Lemma saved_ok usr self e rows :
  signups_in_block (user_pk usr) (block_pk (block self)) rows = [e] ->
  unique_keys rows -> one_per_block rows ->
  unique_keys (saved_rows (set_scheduled_activity e self) rows)
  /\ one_per_block (saved_rows (set_scheduled_activity e self) rows).
Proof.
  intros Hone Hk H1.
  assert (He : In e (signups_in_block (user_pk usr) (block_pk (block self)) rows))
    by (rewrite Hone; simpl; auto).
  apply signups_in_block_In in He. destruct He as (Hin & Hu & Hb).
  split; [unfold unique_keys; now rewrite saved_rows_keys|].
  destruct (in_split _ _ Hin) as (l1 & l2 & ->).
  rewrite saved_rows_split by (auto; reflexivity).
  intros u b. specialize (H1 u b).
  rewrite signups_in_block_app, length_app in *.
  change (e :: l2) with ([e] ++ l2) in H1.
  change (set_scheduled_activity e self :: l2)
    with ([set_scheduled_activity e self] ++ l2).
  rewrite signups_in_block_app, length_app in *.
  unfold signups_in_block at 2. unfold signups_in_block at 2 in H1.
  simpl in *.
  destruct (Z.eqb_spec (user_pk (user e)) u) as [Eu|_]; simpl in *; [|lia].
  destruct (Z.eqb_spec (block_pk (block self)) b) as [Eb|_]; simpl; [|lia].
  rewrite Hb, Eb, Z.eqb_refl in H1. simpl in H1. lia.
Qed.

Lemma transfer_or_create_ok self usr db :
  store_ok db -> store_ok (snd (transfer_or_create self usr db)).
Proof.
  intros [Hk H1]. rewrite transfer_or_create_eq.
  destruct (signups_in_block _ _ _) as [|e [|e' rest]] eqn:E; simpl.
  - now apply created_ok.
  - now apply (saved_ok usr).
  - now split.
Qed.

Lemma add_user_ok self usr request force now db :
  store_ok db -> store_ok (snd (add_user self usr request force now db)).
Proof.
  intros H. rewrite add_user_eq.
  destruct (effective_force request force);
    [now apply transfer_or_create_ok|].
  destruct (first_violated _); [exact H|now apply transfer_or_create_ok].
Qed.

Lemma run_calls_ok calls db : store_ok db -> store_ok (run_calls calls db).
Proof.
  revert db. unfold run_calls.
  induction calls as [|c calls IH]; intros db H; simpl; [exact H|].
  apply IH. now apply add_user_ok.
Qed.

(** C1: starting from an empty [EighthSignup] table, whatever calls of
    [add_user] are made one after the other, a user holds at most one signup
    in a block: the rows whose user is [u] and whose scheduled activity is
    in block [b] are at most one. *)
Theorem add_user_one_signup_per_block :
  forall (blocks : list EighthBlock) (calls : list Call) (u b : Z),
    (length (signups_in_block u b
       (eighthsignup_table
          (run_calls calls {| eighthblock_table := blocks;
                              eighthsignup_table := [] |}))) <= 1)%nat.
Proof.
  intros blocks calls u b.
  apply (run_calls_ok calls). split.
  - constructor.
  - intros u' b'. simpl. lia.
Qed.

(** ** Transfer or create *)

(** C2: when [add_user] is forced, or none of its rules is violated, the
    signup the user holds in the block of [self] is the row that is written:
    it keeps its key, its user and its place in the table and now points at
    [self], and the table has as many rows as before.  When the user holds
    none in that block, one row is appended for the user and [self].  With
    two or more rows of the user in the block, [QuerySet.get] raises and
    nothing is written. *)
Theorem add_user_transfers_or_creates :
  forall self usr request force now db,
    effective_force request force = true
    \/ first_violated (rules self usr request now db) = None ->
    let rows := eighthsignup_table db in
    match signups_in_block (user_pk usr) (block_pk (block self)) rows with
    | [] =>
        add_user self usr request force now db =
        (Return tt,
         with_signups db
           (rows ++ [{| signup_pk := next_pk rows; user := usr;
                        scheduled_activity := self; after_deadline := false |}]))
    | [e] =>
        exists rows',
          add_user self usr request force now db =
          (Return tt, with_signups db rows')
          /\ rows' = map (fun r => if signup_pk r =? signup_pk e
                                   then {| signup_pk := signup_pk e;
                                           user := user e;
                                           scheduled_activity := self;
                                           after_deadline := after_deadline e |}
                                   else r) rows
          /\ length rows' = length rows
          /\ map signup_pk rows' = map signup_pk rows
          /\ In e rows
    | _ :: _ :: _ =>
        add_user self usr request force now db =
        (Raise MultipleObjectsReturned, db)
    end.
Proof.
  intros self usr request force now db H rows.
  assert (E : add_user self usr request force now db
              = transfer_or_create self usr db).
  { rewrite add_user_eq. destruct H as [-> | ->]; [reflexivity|].
    now destruct (effective_force request force). }
  rewrite E, transfer_or_create_eq. fold rows.
  destruct (signups_in_block _ _ rows) as [|e [|e' rest]] eqn:Hq;
    [reflexivity| |reflexivity].
  exists (saved_rows (set_scheduled_activity e self) rows).
  repeat split.
  - unfold saved_rows. now rewrite length_map.
  - apply saved_rows_keys.
  - assert (Hin : In e (signups_in_block (user_pk usr) (block_pk (block self)) rows))
      by (rewrite Hq; simpl; auto).
    now apply signups_in_block_In in Hin.
Qed.

(** Alice holds a signup for study hall in block A; the office forces her
    into chess club in the same block: the row of key 1 is repointed. *)
Lemma add_user_transfers_or_creates_witness :
  effective_force None true = true
  /\ eighthsignup_table Scenario.alice_in_study =
     [{| signup_pk := 1; user := Scenario.alice;
         scheduled_activity := Scenario.study_in_A; after_deadline := false |}]
  /\ exists rows',
       add_user Scenario.chess_in_A Scenario.alice None true Scenario.morning
                Scenario.alice_in_study
       = (Return tt, with_signups Scenario.alice_in_study rows')
       /\ rows' = [{| signup_pk := 1; user := Scenario.alice;
                      scheduled_activity := Scenario.chess_in_A;
                      after_deadline := false |}].
Proof.
  split; [reflexivity|]. split; [reflexivity|].
  destruct (add_user_transfers_or_creates Scenario.chess_in_A Scenario.alice
              None true Scenario.morning Scenario.alice_in_study
              (or_introl eq_refl))
    as (rows' & E & Hrows & _).
  exists rows'. split; [exact E|exact Hrows].
Defined.

(** ** Failures *)

Lemma find_fst_rules_in rs e :
  first_violated rs = Some e -> In e (map snd rs).
Proof.
  unfold first_violated. destruct (find fst rs) as [[b e']|] eqn:F; [|discriminate].
  simpl. intros [= <-]. apply find_some in F.
  apply in_map_iff. exists (b, e'). tauto.
Qed.

Lemma transfer_or_create_raises self usr db e :
  fst (transfer_or_create self usr db) = Raise e ->
  e = MultipleObjectsReturned /\ snd (transfer_or_create self usr db) = db.
Proof.
  rewrite transfer_or_create_eq.
  destruct (signups_in_block _ _ _) as [|s [|s' rest]]; simpl;
    try discriminate.
  intros [= <-]. now split.
Qed.

(** C5: a call of [add_user] that raises leaves the database as it found
    it.  It raises a signup exception exactly when it is not forced and a
    rule is violated, and the exception is that of the first violated rule
    in the order SignupForbidden, BlockLocked, ScheduledActivityCancelled,
    ActivityDeleted, ActivityFull, Presign, Sticky, OneADay; the eight
    exceptions are pairwise distinct. *)
Theorem add_user_failure :
  forall self usr request force now db,
    let r := add_user self usr request force now db in
    (forall e, fst r = Raise e -> snd r = db)
    /\ (forall e, fst r = Raise (EighthException e) <->
                  effective_force request force = false
                  /\ first_violated (rules self usr request now db) = Some e)
    /\ map snd (rules self usr request now db) =
       [SignupForbidden; BlockLocked; ScheduledActivityCancelled;
        ActivityDeleted; ActivityFull; Presign; Sticky; OneADay]
    /\ NoDup (map snd (rules self usr request now db)).
Proof.
  intros self usr request force now db r. subst r.
  rewrite add_user_eq.
  split; [|split; [|split]].
  - intros e.
    destruct (effective_force request force);
      [intros H; now apply transfer_or_create_raises in H|].
    destruct (first_violated _); [reflexivity|].
    intros H; now apply transfer_or_create_raises in H.
  - intros e.
    destruct (effective_force request force).
    + split; [|intros [? _]; discriminate].
      intros H. apply transfer_or_create_raises in H. destruct H; discriminate.
    + destruct (first_violated _) as [e'|]; simpl.
      * split; [intros [= ->]; now split|intros [_ [= ->]]; reflexivity].
      * split; [|intros [_ ?]; discriminate].
        intros H. apply transfer_or_create_raises in H. destruct H; discriminate.
  - reflexivity.
  - cbn [rules map snd].
    repeat (constructor; [simpl; intuition discriminate|]). constructor.
Qed.

(** C6: a request that is not forced, made by someone who is neither the
    user to sign up nor an eighth period admin, raises SignupForbidden and
    writes nothing, whatever the state of the block, of the activity and of
    the signups: no other rule is looked at before. *)
Theorem add_user_forbidden :
  forall self usr r force now db,
    force = false ->
    user_pk usr <> user_pk (request_user r) ->
    is_eighth_admin (request_user r) = false ->
    add_user self usr (Some r) force now db =
    (Raise (EighthException SignupForbidden), db).
Proof.
  intros self usr r force now db -> Hu Ha.
  rewrite add_user_eq. unfold effective_force. rewrite Ha, andb_false_r.
  cbn [orb]. unfold first_violated, rules. cbn [find fst].
  unfold user_eqb. rewrite Ha.
  destruct (Z.eqb_spec (user_pk usr) (user_pk (request_user r))); [contradiction|].
  reflexivity.
Qed.

(** Bob asks, with [force] in the query string, to sign Alice up for an
    activity in a locked block. *)
Lemma add_user_forbidden_witness :
  add_user Scenario.roomy_in_locked Scenario.alice
           (Some {| request_user := Scenario.bob; force_in_GET := true |})
           false Scenario.morning Scenario.no_signups =
  (Raise (EighthException SignupForbidden), Scenario.no_signups).
Proof.
  apply (add_user_forbidden Scenario.roomy_in_locked Scenario.alice
           {| request_user := Scenario.bob; force_in_GET := true |}
           false Scenario.morning Scenario.no_signups);
    [reflexivity|simpl; lia|reflexivity].
Defined.

(** ** Capacity *)

Lemma fold_left_capacity (l : list EighthRoom) (a : Z) :
  fold_left (fun capacity room => capacity + room_capacity room) l a =
  a + sum_capacities (map room_capacity l).
Proof.
  revert a. induction l as [|r l IH]; intros a; simpl; [lia|].
  rewrite IH. lia.
Qed.

Lemma count_nonneg {A} (rows : list A) : 0 <= count rows.
Proof. unfold count. lia. Qed.

Lemma get_true_capacity_eq self :
  get_true_capacity self =
    match capacity self with
    | Some c => c
    | None =>
        match rooms (activity self) with
        | [] => -1
        | _ :: _ => sum_capacities (map room_capacity (rooms (activity self)))
        end
    end.
Proof.
  unfold get_true_capacity, activity_capacity.
  destruct (capacity self); [reflexivity|].
  destruct (rooms (activity self)) as [|r l] eqn:E; [reflexivity|].
  cbn [length Nat.eqb]. rewrite fold_left_capacity. lia.
Qed.

Lemma is_full_iff self db :
  is_full self db = true <->
  get_true_capacity self <> -1
  /\ get_true_capacity self
     <= Z.of_nat (length (filter (fun s => sa_pk (scheduled_activity s)
                                           =? sa_pk self)
                                 (eighthsignup_table db))).
Proof.
  unfold is_full, count, eighthsignup_set, sa_eqb.
  destruct (Z.eqb_spec (get_true_capacity self) (-1)) as [E|N]; cbn [negb].
  - split; [discriminate|tauto].
  - rewrite Z.geb_le. tauto.
Qed.

(** C7: the capacity of a scheduled activity is its own [capacity] when
    that is set, and otherwise the sum of the capacities of the rooms of its
    activity, or -1 when the activity has no room; the scheduled activity is
    full exactly when that capacity is not -1 and the number of signups for
    it has reached it. *)
Theorem true_capacity_and_is_full :
  forall self db,
    get_true_capacity self =
      match capacity self with
      | Some c => c
      | None =>
          match rooms (activity self) with
          | [] => -1
          | _ :: _ => sum_capacities (map room_capacity (rooms (activity self)))
          end
      end
    /\ (is_full self db = true <->
        get_true_capacity self <> -1
        /\ get_true_capacity self
           <= Z.of_nat (length (filter (fun s => sa_pk (scheduled_activity s)
                                                 =? sa_pk self)
                                       (eighthsignup_table db)))).
Proof.
  intros self db. split; [apply get_true_capacity_eq|apply is_full_iff].
Qed.

(** C10 as it holds: a scheduled activity whose capacity is negative and
    not -1 is full, whatever its signups, and no call of [add_user] for it
    that is not forced returns: it writes nothing and raises the first
    violated of SignupForbidden, BlockLocked, ScheduledActivityCancelled,
    ActivityDeleted and ActivityFull, the last of which is violated: the
    first violated of the four rules before ActivityFull when one of them
    is, and ActivityFull when none is. *)
Theorem negative_capacity_is_full :
  forall self usr request force now db,
    get_true_capacity self < 0 ->
    get_true_capacity self <> -1 ->
    is_full self db = true
    /\ (effective_force request force = false ->
        exists e,
          add_user self usr request force now db = (Raise (EighthException e), db)
          /\ first_violated (firstn 5 (rules self usr request now db)) = Some e
          /\ match first_violated (firstn 4 (rules self usr request now db)) with
             | Some earlier => e = earlier
             | None => e = ActivityFull
             end).
Proof.
  intros self usr request force now db Hneg Hne.
  assert (Hfull : is_full self db = true).
  { apply is_full_iff. split; [exact Hne|lia]. }
  split; [exact Hfull|].
  intros Hf. rewrite add_user_eq, Hf.
  unfold first_violated, rules. cbn [find fst firstn].
  rewrite Hfull.
  destruct (match request with Some _ => _ | None => false end);
    [eexists; repeat split|].
  destruct (locked (block self)); [eexists; repeat split|].
  destruct (cancelled self); [eexists; repeat split|].
  destruct (deleted (activity self)); [eexists; repeat split|].
  eexists; repeat split.
Qed.

(** An activity with two rooms of the default capacity, scheduled in
    block A with no capacity of its own: capacity -2, full with no signup,
    and Alice is turned away with ActivityFull. *)
Lemma negative_capacity_is_full_witness :
  get_true_capacity Scenario.roomy_in_A = -2
  /\ is_full Scenario.roomy_in_A Scenario.no_signups = true
  /\ add_user Scenario.roomy_in_A Scenario.alice None false Scenario.morning
              Scenario.no_signups
     = (Raise (EighthException ActivityFull), Scenario.no_signups).
Proof.
  destruct (negative_capacity_is_full Scenario.roomy_in_A Scenario.alice None
              false Scenario.morning Scenario.no_signups)
    as (Hfull & Hadd); [reflexivity|discriminate|].
  split; [reflexivity|]. split; [exact Hfull|].
  destruct (Hadd eq_refl) as (e & E & _ & He).
  cbn in He. rewrite He in E. exact E.
Defined.

(** C10 as stated fails where an earlier rule is violated: the same
    activity scheduled in a locked block has capacity -2, and the call that
    is not forced raises BlockLocked, not ActivityFull. *)
Lemma negative_capacity_locked_block :
  get_true_capacity Scenario.roomy_in_locked = -2
  /\ effective_force None false = false
  /\ fst (add_user Scenario.roomy_in_locked Scenario.alice None false
                   Scenario.morning Scenario.no_signups)
     = Raise (EighthException BlockLocked)
  /\ fst (add_user Scenario.roomy_in_locked Scenario.alice None false
                   Scenario.morning Scenario.no_signups)
     <> Raise (EighthException ActivityFull).
Proof. repeat split; try reflexivity. discriminate. Qed.

(** ** Sticky and one-a-day *)

Lemma first_violated_In rs e :
  first_violated rs = Some e -> In (true, e) rs.
Proof.
  unfold first_violated.
  destruct (find fst rs) as [[b e']|] eqn:F; [|discriminate].
  simpl. intros [= <-]. apply find_some in F. destruct F as [Hin Hb].
  simpl in Hb. now subst b.
Qed.

Lemma add_user_raises_rule self usr request force now db e :
  fst (add_user self usr request force now db) = Raise (EighthException e) ->
  In (true, e) (rules self usr request now db).
Proof.
  rewrite add_user_eq.
  destruct (effective_force request force).
  - intros H. apply transfer_or_create_raises in H. destruct H; discriminate.
  - destruct (first_violated _) as [e'|] eqn:F; cbn [fst].
    + intros [= ->]. now apply first_violated_In.
    + intros H. apply transfer_or_create_raises in H. destruct H; discriminate.
Qed.

(** Sticky is raised only for a user who already holds a signup for [self]
    itself. *)
Lemma add_user_Sticky_own_signup self usr request force now db :
  fst (add_user self usr request force now db) = Raise (EighthException Sticky) ->
  exists s, In s (eighthsignup_table db)
            /\ sa_pk (scheduled_activity s) = sa_pk self
            /\ user_pk (user s) = user_pk usr
            /\ sticky (activity (scheduled_activity s)) = true.
Proof.
  intros H. apply add_user_raises_rule in H. unfold rules in H.
  repeat (destruct H as [H|H]; [try discriminate|]); [|destruct H].
  injection H as H. apply existsb_exists in H. destruct H as (s & Hin & Hs).
  unfold eighthsignup_set in Hin. apply filter_In in Hin.
  destruct Hin as [Hin Hsa]. apply andb_true_iff in Hs. destruct Hs as [Hu Hst].
  exists s. unfold sa_eqb, user_eqb in *. rewrite Z.eqb_eq in *. tauto.
Qed.

(** OneADay is raised only in presence of a signup for [self] whose block
    is not the block of [self]: never, when scheduled activities of the same
    key are the same object. *)
Lemma add_user_OneADay_foreign_block self usr request force now db :
  fst (add_user self usr request force now db) = Raise (EighthException OneADay) ->
  exists s, In s (eighthsignup_table db)
            /\ sa_pk (scheduled_activity s) = sa_pk self
            /\ block_pk (block (scheduled_activity s)) <> block_pk (block self).
Proof.
  intros H. apply add_user_raises_rule in H. unfold rules in H.
  repeat (destruct H as [H|H]; [try discriminate|]); [|destruct H].
  injection H as H. apply andb_true_iff in H. destruct H as [_ H].
  apply existsb_exists in H. destruct H as (s & Hin & Hs).
  unfold eighthsignup_set in Hin. apply filter_In in Hin.
  destruct Hin as [Hin Hsa].
  rewrite !andb_true_iff, negb_true_iff in Hs. destruct Hs as [[[Hb _] _] _].
  exists s. unfold sa_eqb, block_eqb in *.
  rewrite Z.eqb_eq in Hsa. rewrite Z.eqb_neq in Hb. tauto.
Qed.

(** C3, at the input where the code departs from it: Alice is signed up for
    the sticky field trip in block A of 2024-01-10; her call for study hall
    in block B of the same day is not refused with Sticky: it returns, and
    she now holds both signups.  The query of the code runs over
    [self.eighthsignup_set], the signups for study hall in block B. *)
Theorem add_user_sticky_other_block :
  eighthsignup_table Scenario.alice_on_trip =
    [{| signup_pk := 1; user := Scenario.alice;
        scheduled_activity := Scenario.trip_in_A; after_deadline := false |}]
  /\ sticky (activity Scenario.trip_in_A) = true
  /\ date (block Scenario.trip_in_A) = date (block Scenario.study_in_B)
  /\ add_user Scenario.study_in_B Scenario.alice None false Scenario.morning
              Scenario.alice_on_trip =
     (Return tt,
      with_signups Scenario.alice_on_trip
        [{| signup_pk := 1; user := Scenario.alice;
            scheduled_activity := Scenario.trip_in_A; after_deadline := false |};
         {| signup_pk := 2; user := Scenario.alice;
            scheduled_activity := Scenario.study_in_B; after_deadline := false |}]).
Proof. repeat split. Qed.

(** C4, at the input where the code departs from it: chess club is
    one-a-day and scheduled in blocks A and B of 2024-01-10; Alice is signed
    up in block A; her call for block B is not refused with OneADay: it
    returns, and she now holds both signups.  The query of the code runs
    over [self.eighthsignup_set], whose rows are all in the block that it
    then excludes. *)
Theorem add_user_one_a_day_other_block :
  eighthsignup_table Scenario.alice_in_chess =
    [{| signup_pk := 1; user := Scenario.alice;
        scheduled_activity := Scenario.chess_in_A; after_deadline := false |}]
  /\ one_a_day (activity Scenario.chess_in_B) = true
  /\ activity Scenario.chess_in_A = activity Scenario.chess_in_B
  /\ date (block Scenario.chess_in_A) = date (block Scenario.chess_in_B)
  /\ block_pk (block Scenario.chess_in_A) <> block_pk (block Scenario.chess_in_B)
  /\ add_user Scenario.chess_in_B Scenario.alice None false Scenario.morning
              Scenario.alice_in_chess =
     (Return tt,
      with_signups Scenario.alice_in_chess
        [{| signup_pk := 1; user := Scenario.alice;
            scheduled_activity := Scenario.chess_in_A; after_deadline := false |};
         {| signup_pk := 2; user := Scenario.alice;
            scheduled_activity := Scenario.chess_in_B; after_deadline := false |}]).
Proof. repeat split. discriminate. Qed.

(** ** The order of blocks *)

Module StringFacts := OrderedTypeFacts String_as_OT.

Lemma block_leb_le a b : block_leb a b = true <-> block_le a b.
Proof.
  unfold block_leb, block_le.
  destruct (block_compare a b); split; congruence.
Qed.

Lemma block_compare_Gt a b :
  block_compare a b = Gt <->
  date b < date a
  \/ (date a = date b
      /\ String_as_OT.compare (block_letter b) (block_letter a) = Lt).
Proof.
  unfold block_compare.
  destruct (Z.compare_spec (date a) (date b)) as [E|L|G].
  - rewrite StringFacts.compare_gt_iff. split; [auto|intros [?|[_ ?]]; [lia|auto]].
  - split; [discriminate|intros [?|[? _]]; lia].
  - split; [auto|reflexivity].
Qed.

Lemma block_compare_Lt a b :
  block_compare a b = Lt <->
  date a < date b
  \/ (date a = date b
      /\ String_as_OT.compare (block_letter a) (block_letter b) = Lt).
Proof.
  unfold block_compare.
  destruct (Z.compare_spec (date a) (date b)) as [E|L|G].
  - split; [auto|intros [?|[_ ?]]; [lia|auto]].
  - split; [auto|reflexivity].
  - split; [discriminate|intros [?|[? _]]; lia].
Qed.

Lemma block_le_refl a : block_le a a.
Proof.
  unfold block_le. rewrite block_compare_Gt.
  intros [?|[_ H]]; [lia|]. exact (StringFacts.lt_irrefl H).
Qed.

Lemma block_le_total a b : block_le a b \/ block_le b a.
Proof.
  unfold block_le. rewrite !block_compare_Gt.
  destruct (Z.compare_spec (date a) (date b)) as [E|L|G].
  - destruct (String_as_OT.compare (block_letter b) (block_letter a)) eqn:C.
    + left. intros [?|[_ ?]]; [lia|congruence].
    + right. intros [?|[_ H]]; [lia|].
      exact (StringFacts.lt_irrefl (StringFacts.lt_trans C H)).
    + left. intros [?|[_ ?]]; [lia|congruence].
  - left. intros [?|[? _]]; lia.
  - right. intros [?|[? _]]; lia.
Qed.

Lemma block_le_trans a b c : block_le a b -> block_le b c -> block_le a c.
Proof.
  unfold block_le. rewrite !block_compare_Gt.
  intros Hab Hbc [L|[E H]].
  - destruct (Z.lt_trichotomy (date a) (date b)) as [?|[?|?]];
      [apply Hbc; left; lia| |apply Hab; left; lia].
    apply Hbc. left. lia.
  - destruct (Z.lt_trichotomy (date a) (date b)) as [?|[Eab|?]];
      [apply Hbc; left; lia| |apply Hab; left; lia].
    assert (Hba : String_as_OT.compare (block_letter b) (block_letter a) <> Lt)
      by (intros ?; apply Hab; auto).
    assert (Hcb : String_as_OT.compare (block_letter c) (block_letter b) <> Lt)
      by (intros ?; apply Hbc; right; split; [lia|auto]).
    destruct (String_as_OT.compare_spec (block_letter a) (block_letter b))
      as [Eq|Lab|Lba].
    + apply Hcb. now rewrite <- Eq.
    + apply Hcb. exact (StringFacts.lt_trans H Lab).
    + exact (Hba Lba).
Qed.

(** ** [order_by] sorts *)

Section OrderByFacts.
Context {A : Type} (leb : A -> A -> bool).
Hypothesis leb_total : forall a b, leb a b = true \/ leb b a = true.
Hypothesis leb_trans :
  forall a b c, leb a b = true -> leb b c = true -> leb a c = true.

Let le (a b : A) : Prop := leb a b = true.

Lemma insert_by_In x y l : In y (insert_by leb x l) <-> y = x \/ In y l.
Proof.
  induction l as [|z l IH]; simpl; [intuition|].
  destruct (leb x z); simpl; [intuition|]. rewrite IH. intuition.
Qed.

Lemma order_by_In y l : In y (order_by leb l) <-> In y l.
Proof.
  unfold order_by. induction l as [|x l IH]; simpl; [tauto|].
  rewrite insert_by_In, IH. intuition.
Qed.

Lemma insert_by_sorted x l :
  StronglySorted le l -> StronglySorted le (insert_by leb x l).
Proof.
  induction 1 as [|z l Hs IH Hz]; simpl; [repeat constructor|].
  destruct (leb x z) eqn:E.
  - constructor; [now constructor|].
    constructor; [exact E|].
    eapply Forall_impl; [|exact Hz]. intros w Hw. exact (leb_trans _ _ _ E Hw).
  - constructor; [exact IH|].
    apply Forall_forall. intros w Hw. apply insert_by_In in Hw.
    destruct Hw as [->|Hw].
    + destruct (leb_total x z) as [C|C]; [congruence|exact C].
    + rewrite Forall_forall in Hz. now apply Hz.
Qed.

Lemma order_by_sorted l : StronglySorted le (order_by leb l).
Proof.
  unfold order_by. induction l as [|x l IH]; simpl; [constructor|].
  now apply insert_by_sorted.
Qed.

Lemma filter_sorted p l :
  StronglySorted le l -> StronglySorted le (filter p l).
Proof.
  induction 1 as [|z l Hs IH Hz]; simpl; [constructor|].
  destruct (p z); [|exact IH].
  constructor; [exact IH|].
  rewrite Forall_forall in *. intros w Hw. apply filter_In in Hw.
  now apply Hz.
Qed.

(** The first row of a sorted selection is the least selected row. *)
Lemma first_of_selection p l x rest :
  filter p (order_by leb l) = x :: rest ->
  In x l /\ p x = true
  /\ forall y, In y l -> p y = true -> y = x \/ leb x y = true.
Proof.
  intros E.
  assert (Hx : In x (filter p (order_by leb l))) by (rewrite E; simpl; auto).
  apply filter_In in Hx. rewrite order_by_In in Hx.
  split; [tauto|]. split; [tauto|].
  intros y Hy Hp.
  assert (Hin : In y (filter p (order_by leb l)))
    by (apply filter_In; rewrite order_by_In; auto).
  pose proof (filter_sorted p _ (order_by_sorted l)) as Hs.
  rewrite E in Hin, Hs. destruct Hin as [->|Hin]; [auto|].
  right. apply StronglySorted_inv in Hs. destruct Hs as [_ Hall].
  rewrite Forall_forall in Hall. now apply Hall.
Qed.

Lemma empty_selection p l :
  filter p (order_by leb l) = [] -> forall y, In y l -> p y = false.
Proof.
  intros E y Hy. destruct (p y) eqn:Hp; [|reflexivity].
  assert (Hin : In y (filter p (order_by leb l)))
    by (apply filter_In; rewrite order_by_In; auto).
  rewrite E in Hin. destruct Hin.
Qed.

End OrderByFacts.

Lemma block_leb_total a b : block_leb a b = true \/ block_leb b a = true.
Proof. rewrite !block_leb_le. apply block_le_total. Qed.

Lemma block_leb_trans a b c :
  block_leb a b = true -> block_leb b c = true -> block_leb a c = true.
Proof. rewrite !block_leb_le. apply block_le_trans. Qed.

(** ** The first upcoming block *)

Lemma first_block_earliest d f db :
  (forall b, f b = (d <=? date b)) ->
  is_earliest_from d db
    match filter f (order_by block_leb (eighthblock_table db)) with
    | b :: _ => Some b
    | [] => None
    end.
Proof.
  intros Hf.
  destruct (filter f (order_by block_leb (eighthblock_table db)))
    as [|b rest] eqn:E; unfold is_earliest_from.
  - intros b' Hin.
    pose proof (empty_selection block_leb f _ E b' Hin) as Hb.
    rewrite Hf in Hb. apply Z.leb_gt in Hb. exact Hb.
  - destruct (first_of_selection block_leb block_leb_total block_leb_trans
                f _ b rest E) as (Hin & Hp & Hmin).
    rewrite Hf in Hp. apply Z.leb_le in Hp.
    split; [exact Hin|]. split; [exact Hp|].
    intros b' Hin' Hd.
    destruct (Hmin b' Hin') as [->|Hle].
    + rewrite Hf. now apply Z.leb_le.
    + apply block_le_refl.
    + now apply block_leb_le.
Qed.

Lemma get_first_upcoming_block_earliest now db :
  is_earliest_from (dt_date now) db (get_first_upcoming_block now db).
Proof.
  unfold get_first_upcoming_block.
  apply first_block_earliest. intros b. unfold date__gte.
  now destruct (hour now <? 17).
Qed.

Lemma get_first_upcoming_block_any_hour now now' db :
  dt_date now = dt_date now' ->
  get_first_upcoming_block now db = get_first_upcoming_block now' db.
Proof.
  intros E. unfold get_first_upcoming_block.
  assert (F : forall t, filter (fun b => date__gte (date b)
                                  (if hour t <? 17 then replace_time_zero t
                                   else t))
                               (order_by block_leb (eighthblock_table db))
                        = filter (fun b => dt_date t <=? date b)
                                 (order_by block_leb (eighthblock_table db))).
  { intros t. apply filter_ext. intros b. unfold date__gte.
    now destruct (hour t <? 17). }
  now rewrite !F, E.
Qed.

(** C9, at the input where the code departs from it: with the blocks A and
    B of 2024-01-10 and of the day after in the table, at 17:01 of
    2024-01-10 the first upcoming block is still block A of that day, as it
    is at 16:59 and at 00:00.  The lookup [date__gte=now] compares the date
    of the block with the date of [now], so that the hour of [now] has no
    effect: at 17:01 of any day the result is the one of 16:59. *)
Theorem first_upcoming_block_at_17_01 :
  get_first_upcoming_block
    {| dt_date := Scenario.jan10; hour := 17; minute := 1; second := 0;
       microsecond := 0 |} Scenario.no_signups
  = Some Scenario.block_A
  /\ date Scenario.block_A = Scenario.jan10
  /\ get_first_upcoming_block
       {| dt_date := Scenario.jan10; hour := 16; minute := 59; second := 0;
          microsecond := 0 |} Scenario.no_signups
     = Some Scenario.block_A
  /\ get_first_upcoming_block (midnight Scenario.jan10) Scenario.no_signups
     = Some Scenario.block_A
  /\ forall db D s us,
       get_first_upcoming_block
         {| dt_date := D; hour := 17; minute := 1; second := s;
            microsecond := us |} db
       = get_first_upcoming_block
           {| dt_date := D; hour := 16; minute := 59; second := s;
              microsecond := us |} db.
Proof.
  split; [reflexivity|]. split; [reflexivity|]. split; [reflexivity|].
  split; [reflexivity|].
  intros db D s us. now apply get_first_upcoming_block_any_hour.
Qed.

(** ** Neighbouring blocks *)

Lemma after_self_iff self b :
  (date b >? date self)
  || ((date b =? date self)
      && letter_gtb (block_letter b) (block_letter self)) = true
  <-> block_compare self b = Lt.
Proof.
  rewrite block_compare_Lt, orb_true_iff, andb_true_iff, Z.gtb_lt, Z.eqb_eq.
  unfold letter_gtb.
  assert (G : (match String_as_OT.compare (block_letter b) (block_letter self)
               with Gt => true | _ => false end) = true
              <-> String_as_OT.compare (block_letter self) (block_letter b) = Lt).
  { destruct (String_as_OT.compare (block_letter b) (block_letter self)) eqn:C.
    - split; [discriminate|]. intros H. exfalso.
      apply StringFacts.compare_eq_iff in C. rewrite C in H.
      exact (StringFacts.lt_irrefl H).
    - split; [discriminate|]. intros H. exfalso.
      exact (StringFacts.lt_irrefl (StringFacts.lt_trans C H)).
    - split; [intros _|reflexivity].
      apply StringFacts.compare_gt_iff in C. exact C. }
  rewrite G. intuition.
Qed.

Lemma firstn_In {A} n (l : list A) x : In x (firstn n l) -> In x l.
Proof.
  revert l. induction n as [|n IH]; intros [|y l]; simpl; try tauto.
  intros [->|H]; auto.
Qed.

(** What [next_blocks] returns: blocks of the table strictly after [self];
    all of them for quantity -1; for a quantity that is not negative, the
    first [quantity + 1] of them. *)
Lemma next_blocks_spec self quantity db l :
  next_blocks self quantity db = Return l ->
  (forall b, In b l ->
             In b (eighthblock_table db) /\ block_compare self b = Lt)
  /\ (quantity = -1 ->
      forall b, In b (eighthblock_table db) -> block_compare self b = Lt ->
                In b l)
  /\ (0 <= quantity ->
      length l =
      Nat.min (Z.to_nat (quantity + 1))
              (length (filter (fun b => match block_compare self b with
                                        | Lt => true
                                        | _ => false
                                        end) (eighthblock_table db)))).
Proof.
  unfold next_blocks, slice_to.
  set (after := fun b : EighthBlock =>
         (date b >? date self)
         || ((date b =? date self)
             && letter_gtb (block_letter b) (block_letter self))).
  assert (Hin : forall b, In b (filter after (order_by block_leb (eighthblock_table db)))
                          <-> In b (eighthblock_table db) /\ block_compare self b = Lt).
  { intros b. rewrite filter_In, order_by_In. unfold after.
    now rewrite after_self_iff. }
  assert (Hlen : length (filter after (order_by block_leb (eighthblock_table db)))
                 = length (filter (fun b => match block_compare self b with
                                            | Lt => true
                                            | _ => false
                                            end) (eighthblock_table db))).
  { assert (Hext : forall l0,
      filter after l0 = filter (fun b => match block_compare self b with
                                         | Lt => true
                                         | _ => false
                                         end) l0).
    { intros l0. apply filter_ext. intros b.
      pose proof (after_self_iff self b) as I. fold (after b) in I.
      destruct (after b), (block_compare self b); try reflexivity;
        intuition congruence. }
    rewrite Hext. clear Hin.
    unfold order_by.
    induction (eighthblock_table db) as [|x t IH]; [reflexivity|].
    cbn [fold_right].
    assert (Hins : forall y l0 (q : EighthBlock -> bool),
      length (filter q (insert_by block_leb y l0)) = length (filter q (y :: l0))).
    { intros y l0 q. induction l0 as [|z l0 IH0]; [reflexivity|].
      cbn [insert_by]. destruct (block_leb y z); [reflexivity|].
      cbn [filter] in *. destruct (q z), (q y); cbn [length] in *; lia. }
    rewrite Hins. cbn [filter].
    destruct (match block_compare self x with Lt => true | _ => false end);
      cbn [length]; rewrite IH; reflexivity. }
  destruct (Z.eqb_spec quantity (-1)) as [->|Hq].
  - intros [= <-]. split; [apply Hin|]. split; [intros _ b ? ?; now apply Hin|lia].
  - destruct (Z.ltb_spec (quantity + 1) 0) as [Hneg|Hpos]; [discriminate|].
    intros [= <-]. split; [|split; [contradiction|]].
    + intros b Hb. apply Hin. eapply firstn_In. exact Hb.
    + intros _. rewrite length_firstn, Hlen. reflexivity.
Qed.

(** C8, at the input where the code departs from it: with the four blocks
    of 2024-01-10 and 2024-01-11 in the table, [next_blocks] of block A of
    the first day with quantity 1 returns two blocks, and with quantity 0
    one block; [previous_blocks] of block B of the second day with
    quantity 1 returns two blocks.  The slice of the code is
    [blocks[:quantity + 1]]. *)
Theorem next_blocks_quantity_plus_one :
  next_blocks Scenario.block_A 1 Scenario.no_signups =
    Return [Scenario.block_B; Scenario.next_day_A]
  /\ next_blocks Scenario.block_A 0 Scenario.no_signups =
     Return [Scenario.block_B]
  /\ previous_blocks Scenario.next_day_B 1 Scenario.no_signups =
     Return [Scenario.block_B; Scenario.next_day_A]
  /\ next_blocks Scenario.block_A (-1) Scenario.no_signups =
     Return [Scenario.block_B; Scenario.next_day_A; Scenario.next_day_B].
Proof. repeat split. Qed.

(** * Further properties of [add_user] *)

(** ** The two outcomes *)

Lemma add_user_cases self usr request force now db :
  (exists e, add_user self usr request force now db
             = (Raise (EighthException e), db)
             /\ effective_force request force = false
             /\ first_violated (rules self usr request now db) = Some e)
  \/ (add_user self usr request force now db = transfer_or_create self usr db
      /\ (effective_force request force = true
          \/ first_violated (rules self usr request now db) = None)).
Proof.
  rewrite add_user_eq.
  destruct (effective_force request force); [right; auto|].
  destruct (first_violated _) as [e|]; [left; exists e; auto|right; auto].
Qed.

Lemma one_per_block_singleton u b rows s :
  one_per_block rows -> In s (signups_in_block u b rows) ->
  signups_in_block u b rows = [s].
Proof.
  intros H Hin. specialize (H u b).
  destruct (signups_in_block u b rows) as [|x [|y l]]; simpl in *;
    [tauto| |lia].
  destruct Hin as [->|[]]. reflexivity.
Qed.

Lemma transfer_or_create_cases self usr db :
  store_ok db ->
  let rows := eighthsignup_table db in
  (signups_in_block (user_pk usr) (block_pk (block self)) rows = []
   /\ transfer_or_create self usr db
      = (Return tt, with_signups db (rows ++ [created_row usr self rows])))
  \/ (exists l1 e l2,
        rows = l1 ++ e :: l2
        /\ signups_in_block (user_pk usr) (block_pk (block self)) rows = [e]
        /\ transfer_or_create self usr db
           = (Return tt,
              with_signups db (l1 ++ set_scheduled_activity e self :: l2))).
Proof.
  intros [Hk H1] rows. rewrite transfer_or_create_eq. fold rows.
  destruct (signups_in_block _ _ rows) as [|e [|e' rest]] eqn:E.
  - left. auto.
  - right.
    assert (Hin : In e (signups_in_block (user_pk usr) (block_pk (block self)) rows))
      by (rewrite E; simpl; auto).
    apply signups_in_block_In in Hin. destruct Hin as (Hin & _).
    destruct (in_split _ _ Hin) as (l1 & l2 & Hrows).
    exists l1, e, l2. split; [exact Hrows|]. split; [reflexivity|].
    rewrite Hrows. rewrite saved_rows_split; [reflexivity| |reflexivity].
    now rewrite <- Hrows.
  - exfalso. specialize (H1 (user_pk usr) (block_pk (block self))).
    fold rows in H1. rewrite E in H1. simpl in H1. lia.
Qed.

Lemma store_ok_no_signups blocks :
  store_ok {| eighthblock_table := blocks; eighthsignup_table := [] |}.
Proof.
  split; [constructor|]. intros u b. simpl. lia.
Defined.

Lemma store_ok_alice_in_study : store_ok Scenario.alice_in_study.
Proof.
  unfold Scenario.alice_in_study, run_call.
  apply add_user_ok. apply store_ok_no_signups.
Defined.

(** ** A forced call returns *)

(** X1: on a store that holds at most one signup per user and block, a call
    that is forced, by its [force] argument or by an eighth admin whose
    request carries [force], returns: no rule is evaluated. *)
Theorem add_user_forced_returns :
  forall self usr request force now db,
    store_ok db ->
    force = true
    \/ (exists r, request = Some r /\ force_in_GET r = true
                  /\ is_eighth_admin (request_user r) = true) ->
    fst (add_user self usr request force now db) = Return tt.
Proof.
  intros self usr request force now db Hok Hf.
  assert (E : effective_force request force = true).
  { destruct Hf as [->|(r & -> & Hg & Ha)]; unfold effective_force.
    - destruct request; reflexivity.
    - rewrite Hg, Ha. apply orb_true_r. }
  rewrite add_user_eq, E.
  destruct (transfer_or_create_cases self usr db Hok)
    as [[_ ->]|(l1 & e & l2 & _ & _ & ->)]; reflexivity.
Qed.

Lemma add_user_forced_returns_witness :
  fst (add_user Scenario.roomy_in_locked Scenario.alice
         (Some {| request_user := Scenario.office; force_in_GET := true |})
         false Scenario.morning Scenario.alice_in_study) = Return tt.
Proof.
  apply add_user_forced_returns.
  - exact store_ok_alice_in_study.
  - right. eexists. split; [reflexivity|]. split; reflexivity.
Defined.

(** ** What a successful call leaves behind *)

(** X2: after a call that returns, on a store with at most one signup per
    user and block, the user holds exactly one signup in the block of
    [self], and it is for [self]. *)
Theorem add_user_success_signup :
  forall self usr request force now db,
    store_ok db ->
    fst (add_user self usr request force now db) = Return tt ->
    exists s,
      signups_in_block (user_pk usr) (block_pk (block self))
        (eighthsignup_table (snd (add_user self usr request force now db)))
      = [s]
      /\ scheduled_activity s = self
      /\ user_pk (user s) = user_pk usr.
Proof.
  intros self usr request force now db Hok Hret.
  destruct (add_user_cases self usr request force now db)
    as [(e & E & _)|[E _]]; rewrite E in *; [discriminate|].
  pose proof (transfer_or_create_ok self usr db Hok) as [_ H1'].
  destruct (transfer_or_create_cases self usr db Hok)
    as [[Hnone E']|(l1 & e & l2 & Hrows & Hone & E')];
    rewrite E' in *; cbn [snd with_signups eighthsignup_table] in *.
  - exists (created_row usr self (eighthsignup_table db)).
    split; [|split; reflexivity].
    apply one_per_block_singleton; [exact H1'|].
    apply signups_in_block_In. split; [|split; reflexivity].
    apply in_or_app. right. simpl. auto.
  - exists (set_scheduled_activity e self).
    assert (Hin : In e (signups_in_block (user_pk usr) (block_pk (block self))
                          (eighthsignup_table db)))
      by (rewrite Hone; simpl; auto).
    apply signups_in_block_In in Hin. destruct Hin as (_ & Hu & _).
    split; [|split; [reflexivity|exact Hu]].
    apply one_per_block_singleton; [exact H1'|].
    apply signups_in_block_In. split; [|split; [exact Hu|reflexivity]].
    apply in_or_app. right. simpl. auto.
Qed.

Lemma add_user_success_signup_witness :
  exists s,
    signups_in_block (user_pk Scenario.alice)
      (block_pk (block Scenario.chess_in_A))
      (eighthsignup_table
         (snd (add_user Scenario.chess_in_A Scenario.alice None false
                 Scenario.morning Scenario.alice_in_study))) = [s]
    /\ scheduled_activity s = Scenario.chess_in_A
    /\ user_pk (user s) = user_pk Scenario.alice.
Proof.
  apply add_user_success_signup;
    [exact store_ok_alice_in_study|reflexivity].
Defined.

(** ** Repeating a call *)

Lemma run_call_eq db c :
  run_call db c
  = snd (add_user (call_self c) (call_user c) (call_request c) (call_force c)
                  (call_now c) db).
Proof. reflexivity. Qed.

Lemma transfer_or_create_again self usr db :
  store_ok db ->
  snd (transfer_or_create self usr (snd (transfer_or_create self usr db)))
  = snd (transfer_or_create self usr db).
Proof.
  intros Hok.
  pose proof (transfer_or_create_ok self usr db Hok) as Hok'.
  destruct (transfer_or_create_cases self usr db Hok)
    as [[Hnone E]|(l1 & e & l2 & Hrows & Hone & E)];
    rewrite E in *; cbn [snd] in *.
  - set (new := created_row usr self (eighthsignup_table db)) in *.
    destruct (transfer_or_create_cases self usr _ Hok')
      as [[Hnone' _]|(l1' & e' & l2' & Hrows' & Hone' & E')];
      cbn [with_signups eighthsignup_table] in *.
    + exfalso. rewrite signups_in_block_app, Hnone in Hnone'.
      unfold signups_in_block, new in Hnone'. simpl in Hnone'.
      rewrite !Z.eqb_refl in Hnone'. discriminate.
    + rewrite transfer_or_create_eq.
      cbn [with_signups eighthsignup_table]. rewrite Hone'.
      assert (He' : e' = new).
      { rewrite signups_in_block_app, Hnone in Hone'.
        unfold signups_in_block, new in Hone'. simpl in Hone'.
        rewrite !Z.eqb_refl in Hone'. simpl in Hone'.
        injection Hone' as <-. reflexivity. }
      subst e'. cbn [snd]. unfold with_signups.
      cbn [eighthblock_table eighthsignup_table]. f_equal.
      change (set_scheduled_activity new self) with new.
      change (eighthsignup_table db ++ [new])
        with (eighthsignup_table db ++ new :: []).
      apply saved_rows_split; [|reflexivity]. exact (proj1 Hok').
  - set (e0 := set_scheduled_activity e self) in *.
    rewrite transfer_or_create_eq.
    cbn [with_signups eighthsignup_table] in *.
    assert (Hin : In e (signups_in_block (user_pk usr) (block_pk (block self))
                          (eighthsignup_table db)))
      by (rewrite Hone; simpl; auto).
    apply signups_in_block_In in Hin. destruct Hin as (_ & Hu & _).
    assert (Hs : signups_in_block (user_pk usr) (block_pk (block self))
                   (l1 ++ e0 :: l2) = [e0]).
    { apply one_per_block_singleton; [exact (proj2 Hok')|].
      apply signups_in_block_In. split; [|split; [exact Hu|reflexivity]].
      apply in_or_app. right. simpl. auto. }
    rewrite Hs. cbn [snd]. unfold with_signups.
    cbn [eighthblock_table eighthsignup_table]. f_equal.
    change (set_scheduled_activity e0 self) with e0.
    apply saved_rows_split; [exact (proj1 Hok')|reflexivity].
Qed.

(** X3: on a store with at most one signup per user and block, making the
    same call twice leaves the store the first call left: the second call
    either raises or rewrites the user's signup with what it holds. *)
Theorem add_user_idempotent :
  forall db c, store_ok db -> run_call (run_call db c) c = run_call db c.
Proof.
  intros db [self usr request force now] Hok.
  rewrite !run_call_eq. cbn [call_self call_user call_request call_force call_now].
  destruct (add_user_cases self usr request force now db)
    as [(e & E & _)|[E _]]; rewrite E; cbn [snd].
  - now rewrite E.
  - destruct (add_user_cases self usr request force now
                (snd (transfer_or_create self usr db)))
      as [(e & E' & _)|[E' _]]; rewrite E'; cbn [snd]; [reflexivity|].
    now apply transfer_or_create_again.
Qed.

Lemma add_user_idempotent_witness :
  run_call (run_call Scenario.alice_in_study
              (Scenario.signs_up Scenario.alice Scenario.chess_in_A))
           (Scenario.signs_up Scenario.alice Scenario.chess_in_A)
  = run_call Scenario.alice_in_study
      (Scenario.signs_up Scenario.alice Scenario.chess_in_A).
Proof.
  apply add_user_idempotent. exact store_ok_alice_in_study.
Defined.

(** ** What a call leaves alone *)

(** X4: a call never removes a row and never changes a key: the keys of the
    table it leaves are those it found, in the same order, followed by at
    most one new key; the table of blocks is the one it found. *)
Theorem add_user_keeps_rows :
  forall self usr request force now db,
    let db' := snd (add_user self usr request force now db) in
    eighthblock_table db' = eighthblock_table db
    /\ (map signup_pk (eighthsignup_table db')
        = map signup_pk (eighthsignup_table db)
        \/ map signup_pk (eighthsignup_table db')
           = map signup_pk (eighthsignup_table db)
             ++ [next_pk (eighthsignup_table db)]).
Proof.
  intros self usr request force now db db'. subst db'.
  destruct (add_user_cases self usr request force now db)
    as [(e & E & _)|[E _]]; rewrite E; cbn [snd]; [auto|].
  rewrite transfer_or_create_eq.
  destruct (signups_in_block _ _ _) as [|e [|e' rest]];
    cbn [snd with_signups eighthblock_table eighthsignup_table].
  - split; [reflexivity|]. right. now rewrite map_app.
  - split; [reflexivity|]. left. apply saved_rows_keys.
  - auto.
Qed.

(** X5: with unique keys, a call changes the signups of no other user and
    of no other block: for a user and block other than the user signed up
    and the block of [self], the signups are the rows they were. *)
Theorem add_user_frame :
  forall self usr request force now db u b,
    unique_keys (eighthsignup_table db) ->
    u <> user_pk usr \/ b <> block_pk (block self) ->
    signups_in_block u b
      (eighthsignup_table (snd (add_user self usr request force now db)))
    = signups_in_block u b (eighthsignup_table db).
Proof.
  intros self usr request force now db u b Hk Hne.
  destruct (add_user_cases self usr request force now db)
    as [(e & E & _)|[E _]]; rewrite E; cbn [snd]; [reflexivity|].
  rewrite transfer_or_create_eq.
  assert (Hno : forall s, user_pk (user s) = user_pk usr ->
                          block_pk (block (scheduled_activity s))
                          = block_pk (block self) ->
                          signups_in_block u b [s] = []).
  { intros s Hu Hb. unfold signups_in_block. cbn [filter].
    rewrite Hu, Hb.
    destruct (Z.eqb_spec (user_pk usr) u), (Z.eqb_spec (block_pk (block self)) b);
      try reflexivity.
    destruct Hne; congruence. }
  destruct (signups_in_block _ _ (eighthsignup_table db))
    as [|e [|e' rest]] eqn:Q;
    cbn [snd with_signups eighthsignup_table]; [| |reflexivity].
  - rewrite signups_in_block_app, Hno by reflexivity. apply app_nil_r.
  - assert (Hin : In e (signups_in_block (user_pk usr) (block_pk (block self))
                          (eighthsignup_table db)))
      by (rewrite Q; simpl; auto).
    apply signups_in_block_In in Hin. destruct Hin as (Hin & Hu & Hb).
    destruct (in_split _ _ Hin) as (l1 & l2 & Hrows).
    rewrite Hrows in *. rewrite saved_rows_split by (auto; reflexivity).
    change (set_scheduled_activity e self :: l2)
      with ([set_scheduled_activity e self] ++ l2).
    change (e :: l2) with ([e] ++ l2).
    rewrite !signups_in_block_app.
    rewrite (Hno e Hu Hb), (Hno (set_scheduled_activity e self) Hu eq_refl).
    reflexivity.
Qed.

Lemma add_user_frame_witness :
  signups_in_block (user_pk Scenario.alice) (block_pk Scenario.block_A)
    (eighthsignup_table
       (snd (add_user Scenario.study_in_B Scenario.alice None false
               Scenario.morning Scenario.alice_in_study)))
  = signups_in_block (user_pk Scenario.alice) (block_pk Scenario.block_A)
      (eighthsignup_table Scenario.alice_in_study).
Proof.
  apply add_user_frame.
  - exact (proj1 store_ok_alice_in_study).
  - right. simpl. lia.
Defined.

(** ** Permission *)

(** X6: SignupForbidden is raised exactly when the call carries a request,
    is made with [force] false, and the user of the request is neither the
    user to sign up nor an eighth admin.  A call without a request is never
    refused for permission. *)
Theorem add_user_forbidden_iff :
  forall self usr request force now db,
    fst (add_user self usr request force now db)
    = Raise (EighthException SignupForbidden)
    <-> force = false
        /\ exists r, request = Some r
                     /\ user_pk usr <> user_pk (request_user r)
                     /\ is_eighth_admin (request_user r) = false.
Proof.
  intros self usr request force now db. split.
  - intros H. pose proof (add_user_raises_rule _ _ _ _ _ _ _ H) as Hin.
    assert (Hf : effective_force request force = false).
    { destruct (add_user_cases self usr request force now db)
        as [(e & E & Hf & _)|[E _]]; [exact Hf|].
      rewrite E in H. apply transfer_or_create_raises in H.
      destruct H; discriminate. }
    unfold rules in Hin.
    destruct Hin as [Hin|Hin];
      [|repeat (destruct Hin as [Hin|Hin]; [discriminate|]); destruct Hin].
    injection Hin as Hin.
    destruct request as [r|]; [|discriminate].
    apply andb_true_iff in Hin. destruct Hin as [Hu Ha].
    apply negb_true_iff in Hu, Ha. unfold user_eqb in Hu.
    apply Z.eqb_neq in Hu.
    unfold effective_force in Hf. rewrite Ha, andb_false_r, orb_false_r in Hf.
    split; [exact Hf|]. exists r. auto.
  - intros (-> & r & -> & Hu & Ha).
    rewrite add_user_eq. unfold effective_force. rewrite Ha, andb_false_r.
    cbn [orb]. unfold first_violated, rules. cbn [find fst].
    unfold user_eqb. rewrite Ha.
    destruct (Z.eqb_spec (user_pk usr) (user_pk (request_user r))); [contradiction|].
    reflexivity.
Qed.

(** X7: the [force] of the query string counts only for an eighth admin: a
    request of someone else has the same outcome with and without it. *)
Theorem add_user_get_force_needs_admin :
  forall self usr requester in_GET force now db,
    is_eighth_admin requester = false ->
    add_user self usr
      (Some {| request_user := requester; force_in_GET := in_GET |})
      force now db
    = add_user self usr
        (Some {| request_user := requester; force_in_GET := false |})
        force now db.
Proof.
  intros self usr requester in_GET force now db Ha.
  rewrite !add_user_eq. unfold effective_force.
  cbn [request_user force_in_GET]. rewrite Ha, !andb_false_r. reflexivity.
Qed.

Lemma add_user_get_force_needs_admin_witness :
  add_user Scenario.roomy_in_locked Scenario.bob
    (Some {| request_user := Scenario.bob; force_in_GET := true |})
    false Scenario.morning Scenario.no_signups
  = add_user Scenario.roomy_in_locked Scenario.bob
      (Some {| request_user := Scenario.bob; force_in_GET := false |})
      false Scenario.morning Scenario.no_signups.
Proof.
  apply add_user_get_force_needs_admin. reflexivity.
Defined.

(** ** Capacity is respected *)

Lemma eighthsignup_set_app sa db l1 l2 :
  eighthsignup_set sa (with_signups db (l1 ++ l2))
  = eighthsignup_set sa (with_signups db l1)
    ++ eighthsignup_set sa (with_signups db l2).
Proof. unfold eighthsignup_set. cbn. apply filter_app. Qed.

Lemma eighthsignup_set_same_key sa sa' db :
  sa_pk sa = sa_pk sa' -> eighthsignup_set sa db = eighthsignup_set sa' db.
Proof.
  intros E. unfold eighthsignup_set, sa_eqb. now rewrite E.
Qed.

Lemma count_one_row sa db s :
  count (eighthsignup_set sa (with_signups db [s]))
  = if sa_pk (scheduled_activity s) =? sa_pk sa then 1 else 0.
Proof.
  unfold eighthsignup_set, sa_eqb, count. cbn.
  destruct (sa_pk (scheduled_activity s) =? sa_pk sa); reflexivity.
Qed.

Lemma count_app {A} (l1 l2 : list A) : count (l1 ++ l2) = count l1 + count l2.
Proof. unfold count. rewrite length_app. lia. Qed.

Lemma with_signups_table db : with_signups db (eighthsignup_table db) = db.
Proof. now destruct db. Qed.

(** The signups for [sa] after the last statement of [add_user]: one more
    at most, and only when the call is for [sa]. *)
Lemma transfer_or_create_count sa self usr db :
  store_ok db ->
  count (eighthsignup_set sa (snd (transfer_or_create self usr db)))
  <= count (eighthsignup_set sa db)
     + (if sa_pk self =? sa_pk sa then 1 else 0).
Proof.
  intros Hok.
  destruct (transfer_or_create_cases self usr db Hok)
    as [[_ E]|(l1 & e & l2 & Hrows & _ & E)]; rewrite E; cbn [snd].
  - rewrite eighthsignup_set_app, count_app, with_signups_table, count_one_row.
    cbn [created_row scheduled_activity]. lia.
  - rewrite <- (with_signups_table db) at 2. rewrite Hrows.
    change (set_scheduled_activity e self :: l2)
      with ([set_scheduled_activity e self] ++ l2).
    change (e :: l2) with ([e] ++ l2).
    rewrite !eighthsignup_set_app, !count_app, !count_one_row.
    cbn [set_scheduled_activity scheduled_activity].
    destruct (sa_pk (scheduled_activity e) =? sa_pk sa),
             (sa_pk self =? sa_pk sa); lia.
Qed.

Lemma first_violated_none_not_full self usr request now db :
  first_violated (rules self usr request now db) = None ->
  is_full self db = false.
Proof.
  unfold first_violated, rules. cbn [find fst].
  destruct (match request with Some _ => _ | None => false end); [discriminate|].
  destruct (locked (block self)); [discriminate|].
  destruct (cancelled self); [discriminate|].
  destruct (deleted (activity self)); [discriminate|].
  destruct (is_full self db); [discriminate|reflexivity].
Qed.

(** X8: signups do not go over capacity: when a scheduled activity has a
    capacity [n] other than -1 and does not hold more than [n] signups, no
    sequence of calls that are not forced leaves it with more than [n]. *)
Theorem add_user_respects_capacity :
  forall sa n calls db,
    store_ok db ->
    n <> -1 ->
    count (eighthsignup_set sa db) <= n ->
    unforced_calls_for sa n calls ->
    count (eighthsignup_set sa (run_calls calls db)) <= n.
Proof.
  intros sa n calls db Hok Hn Hc Hcalls. revert db Hok Hc.
  unfold run_calls.
  induction Hcalls as [|c calls [Hf Hcap] _ IH]; intros db Hok Hc;
    cbn [fold_left]; [exact Hc|].
  apply IH; [now apply add_user_ok|].
  rewrite run_call_eq.
  destruct c as [self usr request force now].
  cbn [call_self call_user call_request call_force call_now] in *.
  destruct (add_user_cases self usr request force now db)
    as [(e & E & _)|[E [Hforce|Hnone]]]; rewrite E; cbn [snd];
    [exact Hc|congruence|].
  pose proof (transfer_or_create_count sa self usr db Hok) as Hle.
  destruct (Z.eqb_spec (sa_pk self) (sa_pk sa)) as [Hk|_]; [|lia].
  apply first_violated_none_not_full in Hnone.
  unfold is_full in Hnone. rewrite (Hcap Hk) in Hnone.
  destruct (Z.eqb_spec n (-1)); [contradiction|]. cbn [negb] in Hnone.
  rewrite (eighthsignup_set_same_key self sa db Hk) in Hnone.
  rewrite Z.geb_leb in Hnone. apply Z.leb_gt in Hnone. lia.
Qed.

(** Study hall in block A with a capacity of one: Alice holds its only
    place; Bob's call is refused and the place stays Alice's. *)
Lemma add_user_respects_capacity_witness :
  count (eighthsignup_set
           {| sa_pk := 4; block := Scenario.block_A;
              activity := Scenario.study_hall; capacity := Some 1;
              cancelled := false |}
           (run_calls
              [Scenario.signs_up Scenario.bob
                 {| sa_pk := 4; block := Scenario.block_A;
                    activity := Scenario.study_hall; capacity := Some 1;
                    cancelled := false |}]
              Scenario.alice_in_study)) <= 1.
Proof.
  apply add_user_respects_capacity.
  - exact store_ok_alice_in_study.
  - lia.
  - vm_compute. discriminate.
  - constructor; [|constructor]. split; reflexivity.
Defined.

(** * Further properties of blocks and times *)

(** ** The presign period *)

(** X9: it is too early to sign up exactly on the days before the second
    day before the block: from 00:00 two days before the date of the block
    on, it is not. *)
Theorem is_too_early_to_signup_iff :
  forall self now,
    time_of_day_ok now ->
    (is_too_early_to_signup self now = true
     <-> dt_date now < date (block self) - 2).
Proof.
  intros self now (Hh & Hm & Hs & Hu).
  unfold is_too_early_to_signup, datetime_ltb, minus_days, midnight,
    datetime_key.
  cbn [dt_date hour minute second microsecond lex_compare].
  destruct (Z.compare_spec (dt_date now) (date (block self) - 2)) as [E|L|G].
  - destruct (Z.compare_spec (hour now) 0); [|lia|split; [discriminate|lia]].
    destruct (Z.compare_spec (minute now) 0); [|lia|split; [discriminate|lia]].
    destruct (Z.compare_spec (second now) 0); [|lia|split; [discriminate|lia]].
    destruct (Z.compare_spec (microsecond now) 0);
      [|lia|]; split; try discriminate; lia.
  - tauto.
  - split; [discriminate|lia].
Qed.

Lemma is_too_early_to_signup_iff_witness :
  is_too_early_to_signup Scenario.chess_in_A
    {| dt_date := Scenario.jan10 - 3; hour := 23; minute := 59; second := 59;
       microsecond := 0 |} = true
  <-> Scenario.jan10 - 3 < date (block Scenario.chess_in_A) - 2.
Proof.
  apply (is_too_early_to_signup_iff Scenario.chess_in_A
           {| dt_date := Scenario.jan10 - 3; hour := 23; minute := 59;
              second := 59; microsecond := 0 |}).
  unfold time_of_day_ok. simpl. lia.
Defined.

(** ** The first upcoming block at any time *)

(** X10: at any reading of the clock the first upcoming block is the
    earliest block of the table dated today or later, and [None] exactly
    when the table has no such block: the hour of the clock has no effect on
    it. *)
Theorem first_upcoming_block_from_today :
  forall now db,
    is_earliest_from (dt_date now) db (get_first_upcoming_block now db)
    /\ forall now',
         dt_date now' = dt_date now ->
         get_first_upcoming_block now' db = get_first_upcoming_block now db.
Proof.
  intros now db. split; [apply get_first_upcoming_block_earliest|].
  intros now' E. now apply get_first_upcoming_block_any_hour.
Qed.

(** ** Sorted lists *)

Section SortedFacts.
Context {A : Type} (R : A -> A -> Prop).

Lemma StronglySorted_app_inv l1 l2 :
  StronglySorted R (l1 ++ l2) ->
  StronglySorted R l1 /\ StronglySorted R l2
  /\ forall a b, In a l1 -> In b l2 -> R a b.
Proof.
  induction l1 as [|x l1 IH]; simpl; intros H.
  - split; [constructor|]. split; [exact H|]. intros a b [].
  - apply StronglySorted_inv in H. destruct H as [Hs Hx].
    destruct (IH Hs) as (H1 & H2 & H12).
    rewrite Forall_forall in Hx.
    split; [constructor; [exact H1|]|split; [exact H2|]].
    + apply Forall_forall. intros y Hy. apply Hx. apply in_or_app. auto.
    + intros a b [<-|Ha] Hb; [apply Hx; apply in_or_app; auto|auto].
Qed.

Lemma StronglySorted_app l1 l2 :
  StronglySorted R l1 -> StronglySorted R l2 ->
  (forall a b, In a l1 -> In b l2 -> R a b) ->
  StronglySorted R (l1 ++ l2).
Proof.
  induction 1 as [|x l1 Hs IH Hx]; simpl; intros H2 H12; [exact H2|].
  constructor; [apply IH; auto|].
  apply Forall_app. split; [exact Hx|].
  apply Forall_forall. intros b Hb. apply H12; auto.
Qed.

Lemma StronglySorted_rev l :
  StronglySorted (fun a b => R b a) l -> StronglySorted R (rev l).
Proof.
  induction 1 as [|x l Hs IH Hx]; simpl; [constructor|].
  apply StronglySorted_app; [exact IH|repeat constructor|].
  intros a b Ha [<-|[]]. rewrite Forall_forall in Hx.
  apply Hx. now apply in_rev.
Qed.

Lemma StronglySorted_impl (R' : A -> A -> Prop) l :
  (forall a b, R a b -> R' a b) ->
  StronglySorted R l -> StronglySorted R' l.
Proof.
  intros HR. induction 1 as [|x l Hs IH Hx]; constructor; [exact IH|].
  eapply Forall_impl; [|exact Hx]. auto.
Qed.

End SortedFacts.

(** Of a sorted list, what a slice leaves out comes after what it takes. *)
Lemma firstn_sorted_nearest {A} (R : A -> A -> Prop) n (l : list A) x :
  StronglySorted R l -> In x l ->
  In x (firstn n l)
  \/ (length (firstn n l) = n /\ forall a, In a (firstn n l) -> R a x).
Proof.
  intros Hs Hin. rewrite <- (firstn_skipn n l) in Hs, Hin.
  apply in_app_or in Hin. destruct Hin as [Hin|Hin]; [auto|right].
  apply StronglySorted_app_inv in Hs. destruct Hs as (_ & _ & H12).
  split; [|intros a Ha; now apply H12].
  apply firstn_length_le.
  destruct (Nat.le_gt_cases n (length l)) as [Hle|Hgt]; [exact Hle|].
  rewrite skipn_all2 in Hin by lia. destruct Hin.
Qed.

(** ** Before and after a block *)

Lemma block_compare_flip a b :
  block_compare a b = Gt <-> block_compare b a = Lt.
Proof.
  rewrite block_compare_Gt, block_compare_Lt.
  split; (intros [?|[? ?]]; [left; lia|right; split; [lia|assumption]]).
Qed.

Lemma block_compare_Lt_le a b : block_compare a b = Lt -> block_le a b.
Proof. unfold block_le. congruence. Qed.

Lemma before_self_iff self b :
  (date b <? date self)
  || ((date b =? date self)
      && letter_ltb (block_letter b) (block_letter self)) = true
  <-> block_compare b self = Lt.
Proof.
  rewrite block_compare_Lt, orb_true_iff, andb_true_iff, Z.ltb_lt, Z.eqb_eq.
  unfold letter_ltb.
  destruct (String_as_OT.compare (block_letter b) (block_letter self));
    intuition congruence.
Qed.

Lemma asc_sorted (blocks : list EighthBlock) :
  StronglySorted block_le (order_by block_leb blocks).
Proof.
  eapply StronglySorted_impl;
    [|apply (order_by_sorted block_leb block_leb_total block_leb_trans)].
  intros a b. apply block_leb_le.
Qed.

Lemma desc_sorted (blocks : list EighthBlock) :
  StronglySorted (fun a b => block_le b a)
                 (order_by (fun a b => block_leb b a) blocks).
Proof.
  eapply StronglySorted_impl;
    [|apply (order_by_sorted (fun a b => block_leb b a))].
  - intros a b. apply block_leb_le.
  - intros a b. apply block_leb_total.
  - intros a b c H1 H2. exact (block_leb_trans _ _ _ H2 H1).
Qed.

Lemma filter_sorted_rel {A} (R : A -> A -> Prop) p (l : list A) :
  StronglySorted R l -> StronglySorted R (filter p l).
Proof.
  induction 1 as [|z l Hs IH Hz]; simpl; [constructor|].
  destruct (p z); [|exact IH].
  constructor; [exact IH|].
  rewrite Forall_forall in *. intros w Hw. apply filter_In in Hw.
  now apply Hz.
Qed.

Lemma firstn_sorted {A} (R : A -> A -> Prop) n (l : list A) :
  StronglySorted R l -> StronglySorted R (firstn n l).
Proof.
  intros Hs. rewrite <- (firstn_skipn n l) in Hs.
  now apply StronglySorted_app_inv in Hs.
Qed.

(** ** The nearest blocks *)

(** X11: with a quantity that is not negative, [next_blocks] returns blocks
    of the table that are strictly after [self], in ascending order, at most
    [quantity + 1] of them, and the nearest ones: a block after [self] that
    is not returned is not before any that is, and then [quantity + 1] are
    returned. *)
Theorem next_blocks_nearest :
  forall self quantity db l,
    0 <= quantity ->
    next_blocks self quantity db = Return l ->
    StronglySorted block_le l
    /\ (forall b, In b l ->
                  In b (eighthblock_table db) /\ block_compare self b = Lt)
    /\ (length l <= Z.to_nat (quantity + 1))%nat
    /\ (forall b', In b' (eighthblock_table db) ->
                   block_compare self b' = Lt ->
                   In b' l
                   \/ (length l = Z.to_nat (quantity + 1)
                       /\ forall b, In b l -> block_le b b')).
Proof.
  intros self quantity db l Hq.
  unfold next_blocks, slice_to.
  destruct (Z.eqb_spec quantity (-1)); [lia|].
  destruct (Z.ltb_spec (quantity + 1) 0); [lia|].
  set (L := filter _ (order_by block_leb (eighthblock_table db))).
  assert (HL : StronglySorted block_le L)
    by (apply filter_sorted_rel, asc_sorted).
  assert (Hin : forall b, In b L
                          <-> In b (eighthblock_table db)
                              /\ block_compare self b = Lt).
  { intros b. unfold L. rewrite filter_In, order_by_In.
    now rewrite after_self_iff. }
  intros [= <-]. split; [now apply firstn_sorted|]. split; [|split].
  - intros b Hb. apply Hin. eapply firstn_In. exact Hb.
  - apply firstn_le_length.
  - intros b' Hb' Hlt. apply firstn_sorted_nearest; [exact HL|].
    apply Hin. auto.
Qed.

Lemma next_blocks_nearest_witness :
  StronglySorted block_le [Scenario.block_B; Scenario.next_day_A]
  /\ (forall b, In b [Scenario.block_B; Scenario.next_day_A] ->
                In b (eighthblock_table Scenario.no_signups)
                /\ block_compare Scenario.block_A b = Lt)
  /\ (length [Scenario.block_B; Scenario.next_day_A] <= Z.to_nat (1 + 1))%nat
  /\ (forall b', In b' (eighthblock_table Scenario.no_signups) ->
                 block_compare Scenario.block_A b' = Lt ->
                 In b' [Scenario.block_B; Scenario.next_day_A]
                 \/ (length [Scenario.block_B; Scenario.next_day_A]
                     = Z.to_nat (1 + 1)
                     /\ forall b, In b [Scenario.block_B; Scenario.next_day_A] ->
                                  block_le b b')).
Proof.
  apply (next_blocks_nearest Scenario.block_A 1 Scenario.no_signups);
    [lia|reflexivity].
Defined.

(** X12: with a quantity that is not negative, [previous_blocks] returns
    blocks of the table that are strictly before [self], in ascending order,
    at most [quantity + 1] of them, and the nearest ones: a block before
    [self] that is not returned is not after any that is. *)
Theorem previous_blocks_nearest :
  forall self quantity db l,
    0 <= quantity ->
    previous_blocks self quantity db = Return l ->
    StronglySorted block_le l
    /\ (forall b, In b l ->
                  In b (eighthblock_table db) /\ block_compare b self = Lt)
    /\ (length l <= Z.to_nat (quantity + 1))%nat
    /\ (forall b', In b' (eighthblock_table db) ->
                   block_compare b' self = Lt ->
                   In b' l
                   \/ (length l = Z.to_nat (quantity + 1)
                       /\ forall b, In b l -> block_le b' b)).
Proof.
  intros self quantity db l Hq.
  unfold previous_blocks, slice_to.
  destruct (Z.eqb_spec quantity (-1)); [lia|].
  destruct (Z.ltb_spec (quantity + 1) 0); [lia|].
  set (L := filter _ (order_by _ (eighthblock_table db))).
  assert (HL : StronglySorted (fun a b => block_le b a) L)
    by (apply filter_sorted_rel, desc_sorted).
  assert (Hin : forall b, In b L
                          <-> In b (eighthblock_table db)
                              /\ block_compare b self = Lt).
  { intros b. unfold L. rewrite filter_In, order_by_In.
    now rewrite before_self_iff. }
  cbn [result_map]. intros [= <-].
  split; [apply StronglySorted_rev; now apply firstn_sorted|].
  split; [|split].
  - intros b Hb. apply in_rev in Hb. apply Hin. eapply firstn_In. exact Hb.
  - rewrite length_rev. apply firstn_le_length.
  - intros b' Hb' Hlt.
    destruct (firstn_sorted_nearest _ (Z.to_nat (quantity + 1)) L b' HL)
      as [Hfst|[Hlen Hall]]; [apply Hin; auto| |].
    + left. now apply in_rev in Hfst.
    + right. rewrite length_rev. split; [exact Hlen|].
      intros b Hb. apply in_rev in Hb. now apply Hall.
Qed.

Lemma previous_blocks_nearest_witness :
  StronglySorted block_le [Scenario.block_B; Scenario.next_day_A]
  /\ (forall b, In b [Scenario.block_B; Scenario.next_day_A] ->
                In b (eighthblock_table Scenario.no_signups)
                /\ block_compare b Scenario.next_day_B = Lt)
  /\ (length [Scenario.block_B; Scenario.next_day_A] <= Z.to_nat (1 + 1))%nat
  /\ (forall b', In b' (eighthblock_table Scenario.no_signups) ->
                 block_compare b' Scenario.next_day_B = Lt ->
                 In b' [Scenario.block_B; Scenario.next_day_A]
                 \/ (length [Scenario.block_B; Scenario.next_day_A]
                     = Z.to_nat (1 + 1)
                     /\ forall b, In b [Scenario.block_B; Scenario.next_day_A] ->
                                  block_le b' b)).
Proof.
  apply (previous_blocks_nearest Scenario.next_day_B 1 Scenario.no_signups);
    [lia|reflexivity].
Defined.

(** ** The blocks around a block *)

Lemma get_surrounding_blocks_eq self db :
  get_surrounding_blocks self db =
  Return (blocks_before self db ++ self :: blocks_after self db).
Proof. reflexivity. Qed.

Lemma blocks_before_In self db b :
  In b (blocks_before self db)
  <-> In b (eighthblock_table db) /\ block_compare b self = Lt.
Proof.
  unfold blocks_before. rewrite <- in_rev, filter_In, order_by_In.
  now rewrite before_self_iff.
Qed.

Lemma blocks_after_In self db b :
  In b (blocks_after self db)
  <-> In b (eighthblock_table db) /\ block_compare self b = Lt.
Proof.
  unfold blocks_after. rewrite filter_In, order_by_In.
  now rewrite after_self_iff.
Qed.

Lemma surrounding_sorted self db :
  StronglySorted block_le
    (blocks_before self db ++ self :: blocks_after self db).
Proof.
  apply StronglySorted_app.
  - unfold blocks_before.
    apply StronglySorted_rev, filter_sorted_rel, desc_sorted.
  - constructor; [unfold blocks_after; apply filter_sorted_rel, asc_sorted|].
    apply Forall_forall. intros b Hb. apply blocks_after_In in Hb.
    apply block_compare_Lt_le. tauto.
  - intros a b Ha Hb. apply blocks_before_In in Ha. destruct Ha as [_ Ha].
    apply block_compare_Lt_le in Ha.
    destruct Hb as [<-|Hb]; [exact Ha|].
    apply blocks_after_In in Hb. destruct Hb as [_ Hb].
    apply block_compare_Lt_le in Hb.
    exact (block_le_trans _ _ _ Ha Hb).
Qed.

(** X13: [get_surrounding_blocks] returns, in ascending order, the blocks of
    the table strictly before [self], then [self], then the blocks strictly
    after it: [self] comes once, whether it is a row of the table or not,
    and the rows left out are those that have the date and letter of
    [self]. *)
Theorem get_surrounding_blocks_sorted :
  forall self db,
    exists prev next,
      get_surrounding_blocks self db = Return (prev ++ self :: next)
      /\ Forall (fun b => In b (eighthblock_table db)
                          /\ block_compare b self = Lt) prev
      /\ Forall (fun b => In b (eighthblock_table db)
                          /\ block_compare self b = Lt) next
      /\ StronglySorted block_le (prev ++ self :: next)
      /\ forall b, In b (eighthblock_table db) ->
                   block_compare b self <> Eq ->
                   In b (prev ++ self :: next).
Proof.
  intros self db. rewrite get_surrounding_blocks_eq.
  exists (blocks_before self db), (blocks_after self db).
  split; [reflexivity|].
  split; [apply Forall_forall; intros b Hb; now apply blocks_before_In|].
  split; [apply Forall_forall; intros b Hb; now apply blocks_after_In|].
  split; [apply surrounding_sorted|].
  intros b Hin Hne. apply in_or_app.
  destruct (block_compare b self) eqn:C; [congruence| |].
  - left. apply blocks_before_In. auto.
  - right. right. apply blocks_after_In. split; [exact Hin|].
    now apply block_compare_flip.
Qed.

(** ** The current blocks *)

Lemma insert_by_perm {A} (leb : A -> A -> bool) x l :
  Permutation (insert_by leb x l) (x :: l).
Proof.
  induction l as [|y l IH]; simpl; [reflexivity|].
  destruct (leb x y); [reflexivity|].
  rewrite IH. apply perm_swap.
Qed.

Lemma order_by_perm {A} (leb : A -> A -> bool) l :
  Permutation (order_by leb l) l.
Proof.
  unfold order_by. induction l as [|x l IH]; simpl; [reflexivity|].
  rewrite insert_by_perm. now constructor.
Qed.

Lemma filter_perm {A} (p : A -> bool) l l' :
  Permutation l l' -> Permutation (filter p l) (filter p l').
Proof.
  induction 1 as [|x l l' H IH|x y l|l l' l'' H1 IH1 H2 IH2]; simpl.
  - reflexivity.
  - destruct (p x); [now constructor|exact IH].
  - destruct (p x), (p y); try reflexivity. apply perm_swap.
  - now transitivity (filter p l').
Qed.

Lemma split_by_compare {A} (c : A -> comparison) (l : list A) :
  Permutation l
    (filter (fun x => match c x with Lt => true | _ => false end) l
     ++ filter (fun x => match c x with Eq => true | _ => false end) l
     ++ filter (fun x => match c x with Gt => true | _ => false end) l).
Proof.
  induction l as [|x l IH]; simpl; [reflexivity|].
  destruct (c x); simpl.
  - rewrite IH at 1. apply Permutation_middle.
  - now constructor.
  - rewrite IH at 1. rewrite !app_assoc. apply Permutation_middle.
Qed.

Lemma filter_only {A} (p : A -> bool) (l : list A) (x : A) :
  NoDup l -> In x l -> p x = true ->
  (forall y, In y l -> p y = true -> y = x) ->
  filter p l = [x].
Proof.
  induction l as [|y l IH]; simpl; [tauto|].
  intros Hnd Hin Hp Hall. inversion Hnd as [|? ? Hy Hnd']; subst.
  assert (Hnone : ~ In x l -> filter p l = []).
  { intros Hx. destruct (filter p l) as [|z t] eqn:F; [reflexivity|].
    assert (Hz : In z (filter p l)) by (rewrite F; simpl; auto).
    apply filter_In in Hz. destruct Hz as [Hz Hpz].
    exfalso. apply Hx. rewrite <- (Hall z); auto. }
  destruct Hin as [->|Hin].
  - rewrite Hp, Hnone by exact Hy. reflexivity.
  - destruct (p y) eqn:Py.
    + exfalso. apply Hy. rewrite (Hall y); auto.
    + apply IH; auto.
Qed.

Lemma unique_block_keys_inj blocks a b :
  unique_block_keys blocks -> In a blocks -> In b blocks ->
  block_pk a = block_pk b -> a = b.
Proof.
  unfold unique_block_keys. induction blocks as [|x l IH]; simpl; [tauto|].
  intros Hnd Ha Hb E. inversion Hnd as [|? ? Hx Hnd']; subst.
  destruct Ha as [->|Ha], Hb as [->|Hb]; auto.
  - exfalso. apply Hx. rewrite E. now apply in_map.
  - exfalso. apply Hx. rewrite <- E. now apply in_map.
Qed.

Lemma get_first_upcoming_block_In now db first :
  get_first_upcoming_block now db = Some first ->
  In first (eighthblock_table db).
Proof.
  unfold get_first_upcoming_block.
  destruct (filter _ (order_by block_leb (eighthblock_table db)))
    as [|b rest] eqn:F; [discriminate|].
  intros [= <-].
  assert (Hb : In b (filter (fun b0 => date__gte (date b0)
                               (if hour now <? 17 then replace_time_zero now
                                else now))
                            (order_by block_leb (eighthblock_table db))))
    by (rewrite F; simpl; auto).
  apply filter_In in Hb. destruct Hb as [Hb _].
  now apply order_by_In in Hb.
Qed.

Lemma block_compare_refl a : block_compare a a = Eq.
Proof.
  pose proof (block_le_refl a) as R. unfold block_le in R.
  destruct (block_compare a a) eqn:C; [reflexivity| |congruence].
  apply block_compare_Lt in C. destruct C as [?|[_ C]]; [lia|].
  exfalso. exact (StringFacts.lt_irrefl C).
Qed.

Lemma blocks_before_perm self db :
  Permutation (blocks_before self db)
    (filter (fun b => match block_compare b self with
                      | Lt => true
                      | _ => false
                      end) (eighthblock_table db)).
Proof.
  unfold blocks_before. rewrite <- Permutation_rev.
  rewrite (filter_perm _ _ _ (order_by_perm _ (eighthblock_table db))).
  erewrite filter_ext; [reflexivity|]. intros b. cbv beta.
  pose proof (before_self_iff self b) as I.
  destruct (block_compare b self);
    destruct ((date b <? date self)
              || (date b =? date self)
                 && letter_ltb (block_letter b) (block_letter self));
    try reflexivity; intuition congruence.
Qed.

Lemma blocks_after_perm self db :
  Permutation (blocks_after self db)
    (filter (fun b => match block_compare b self with
                      | Gt => true
                      | _ => false
                      end) (eighthblock_table db)).
Proof.
  unfold blocks_after.
  rewrite (filter_perm _ _ _ (order_by_perm _ (eighthblock_table db))).
  erewrite filter_ext; [reflexivity|]. intros b. cbv beta.
  pose proof (after_self_iff self b) as I.
  pose proof (block_compare_flip b self) as Fl.
  destruct (block_compare b self);
    destruct ((date b >? date self)
              || (date b =? date self)
                 && letter_gtb (block_letter b) (block_letter self));
    try reflexivity; intuition congruence.
Qed.

Lemma get_first_upcoming_block_None now db :
  get_first_upcoming_block now db = None
  <-> forall b, In b (eighthblock_table db) -> date b < dt_date now.
Proof.
  pose proof (get_first_upcoming_block_earliest now db) as H.
  destruct (get_first_upcoming_block now db) as [first|]; cbn in H.
  - split; [discriminate|]. intros Hall. destruct H as (Hin & Hd & _).
    specialize (Hall first Hin). lia.
  - tauto.
Qed.

Lemma get_current_blocks_none now db :
  snd (get_current_blocks now db) = db
  /\ (fst (get_current_blocks now db) = Return []
      <-> get_first_upcoming_block now db = None).
Proof.
  unfold get_current_blocks, bind, gets, raise.
  destruct (get_first_upcoming_block now db) as [first|] eqn:F;
    [|split; [reflexivity|split; reflexivity]].
  pose proof (get_first_upcoming_block_In _ _ _ F) as Hin.
  assert (Hrow : In first (filter (fun b => block_pk b =? block_pk first)
                                  (eighthblock_table db)))
    by (apply filter_In; split; [exact Hin|apply Z.eqb_refl]).
  destruct (filter _ (eighthblock_table db)) as [|r [|r' rest]];
    [destruct Hrow| |]; cbn [get ret raise fst snd].
  - split; [reflexivity|].
    rewrite get_surrounding_blocks_eq.
    split; [|discriminate]. intros [= H].
    apply (f_equal (@length _)) in H. rewrite length_app in H.
    simpl in H. lia.
  - split; [reflexivity|]. split; discriminate.
Qed.

(** X14: [get_current_blocks] writes nothing, and returns the empty list
    exactly when every block of the table is dated before the day of the
    clock. *)
Theorem get_current_blocks_empty :
  forall now db,
    snd (get_current_blocks now db) = db
    /\ (fst (get_current_blocks now db) = Return []
        <-> forall b, In b (eighthblock_table db) -> date b < dt_date now).
Proof.
  intros now db. rewrite <- get_first_upcoming_block_None.
  apply get_current_blocks_none.
Qed.

(** X15: on a table whose primary keys are unique and whose blocks differ in
    date or letter, when some block is dated the day of the clock or later,
    the current blocks are all the blocks of the table, each once, in
    ascending order. *)
Theorem get_current_blocks_all :
  forall now db b,
    unique_block_keys (eighthblock_table db) ->
    unique_date_letter (eighthblock_table db) ->
    In b (eighthblock_table db) ->
    dt_date now <= date b ->
    exists l,
      get_current_blocks now db = (Return l, db)
      /\ Permutation l (eighthblock_table db)
      /\ StronglySorted block_le l.
Proof.
  intros now db b Hpk Hdl Hb Hd.
  destruct (get_first_upcoming_block now db) as [first|] eqn:F.
  2:{ pose proof (proj1 (get_first_upcoming_block_None now db) F b Hb). lia. }
  pose proof (get_first_upcoming_block_In _ _ _ F) as Hin.
  assert (Hnd : NoDup (eighthblock_table db))
    by (eapply NoDup_map_inv; exact Hpk).
  unfold get_current_blocks, bind, gets. rewrite F.
  rewrite (filter_only _ _ first Hnd Hin (Z.eqb_refl _)).
  2:{ intros y Hy E. apply Z.eqb_eq in E.
      now apply (unique_block_keys_inj (eighthblock_table db)). }
  cbn [get ret]. rewrite get_surrounding_blocks_eq.
  exists (blocks_before first db ++ first :: blocks_after first db).
  split; [reflexivity|]. split; [|apply surrounding_sorted].
  apply Permutation_sym.
  etransitivity;
    [apply (split_by_compare (fun b => block_compare b first))|].
  apply Permutation_app; [apply Permutation_sym, blocks_before_perm|].
  rewrite (filter_only _ _ first Hnd Hin).
  - cbn [app]. constructor. apply Permutation_sym, blocks_after_perm.
  - now rewrite block_compare_refl.
  - intros y Hy C. apply Hdl; [exact Hy|exact Hin|].
    destruct (block_compare y first); congruence.
Qed.

Lemma unique_block_keys_week :
  unique_block_keys Scenario.blocks_of_the_week.
Proof.
  unfold unique_block_keys. simpl.
  repeat (constructor; [simpl; intuition discriminate|]). constructor.
Defined.

Lemma unique_date_letter_week :
  unique_date_letter Scenario.blocks_of_the_week.
Proof.
  intros a b Ha Hb. simpl in Ha, Hb.
  repeat (destruct Ha as [<-|Ha]; [|]);
    try (destruct Ha);
    repeat (destruct Hb as [<-|Hb]; [|]);
    try (destruct Hb);
    vm_compute; intros C; (reflexivity || discriminate C).
Defined.

Lemma get_current_blocks_all_witness :
  exists l,
    get_current_blocks Scenario.morning Scenario.no_signups
    = (Return l, Scenario.no_signups)
    /\ Permutation l (eighthblock_table Scenario.no_signups)
    /\ StronglySorted block_le l.
Proof.
  apply (get_current_blocks_all Scenario.morning Scenario.no_signups
           Scenario.next_day_B).
  - exact unique_block_keys_week.
  - exact unique_date_letter_week.
  - simpl. auto.
  - simpl. unfold Scenario.jan10. lia.
Defined.

(** * [validate_unique] and the signups of a block *)

Lemma validate_unique_Valid self db :
  validate_unique self db = Valid <->
  forall s, In s (eighthsignup_table db) ->
            signup_pk s <> signup_pk self ->
            user_pk (user s) = user_pk (user self) ->
            sa_pk (scheduled_activity s) <> sa_pk (scheduled_activity self)
            /\ block_pk (block (scheduled_activity s))
               <> block_pk (block (scheduled_activity self)).
Proof.
  unfold validate_unique. rewrite !count_filter_existsb.
  set (others := exclude _ (eighthsignup_table db)).
  assert (Hin : forall s, In s others
                          <-> In s (eighthsignup_table db)
                              /\ signup_pk s <> signup_pk self).
  { intros s. unfold others, exclude.
    rewrite filter_In, negb_true_iff, Z.eqb_neq. tauto. }
  match goal with
  | |- (if ?a then _ else if ?b then _ else _) = _ <-> _ =>
      destruct a eqn:E1; [|destruct b eqn:E2]
  end.
  - split; [discriminate|]. intros H. exfalso.
    apply existsb_exists in E1. destruct E1 as (s & Hs & Hp).
    apply Hin in Hs. destruct Hs as [Hs Hpk].
    apply andb_true_iff in Hp. destruct Hp as [Hu Hk].
    unfold user_eqb, sa_eqb in Hu, Hk. apply Z.eqb_eq in Hu, Hk.
    destruct (H s Hs Hpk Hu) as [Hne _]. exact (Hne Hk).
  - split; [discriminate|]. intros H. exfalso.
    apply existsb_exists in E2. destruct E2 as (s & Hs & Hp).
    apply Hin in Hs. destruct Hs as [Hs Hpk].
    apply andb_true_iff in Hp. destruct Hp as [Hu Hb].
    unfold user_eqb, block_eqb in Hu, Hb. apply Z.eqb_eq in Hu, Hb.
    destruct (H s Hs Hpk Hu) as [_ Hne]. exact (Hne Hb).
  - split; [intros _|reflexivity]. intros s Hs Hpk Hu.
    assert (Ho : In s others) by (apply Hin; auto).
    split; intros Heq.
    + apply Bool.diff_true_false. rewrite <- E1. symmetry.
      apply existsb_exists. exists s. split; [exact Ho|].
      unfold user_eqb, sa_eqb. rewrite Hu, Heq, !Z.eqb_refl. reflexivity.
    + apply Bool.diff_true_false. rewrite <- E2. symmetry.
      apply existsb_exists. exists s. split; [exact Ho|].
      unfold user_eqb, block_eqb. rewrite Hu, Heq, !Z.eqb_refl. reflexivity.
Qed.

Lemma filter_two {A} (p : A -> bool) (l : list A) x y :
  In x l -> In y l -> x <> y -> p x = true -> p y = true ->
  (2 <= length (filter p l))%nat.
Proof.
  intros Hx Hy Hne Px Py.
  destruct (in_split _ _ Hx) as (l1 & l2 & ->).
  rewrite filter_app, length_app. cbn [filter]. rewrite Px. cbn [length].
  apply in_app_or in Hy. destruct Hy as [Hy|[Hy|Hy]]; [|congruence|].
  - assert (In y (filter p l1)) by (apply filter_In; auto).
    destruct (filter p l1); [contradiction|simpl; lia].
  - assert (In y (filter p l2)) by (apply filter_In; auto).
    destruct (filter p l2); [contradiction|simpl; lia].
Qed.

Lemma signups_in_block_keys u b rows :
  unique_keys rows -> unique_keys (signups_in_block u b rows).
Proof.
  unfold unique_keys, signups_in_block.
  induction rows as [|r rows IH]; cbn [filter map]; [auto|].
  intros Hnd. apply NoDup_cons_iff in Hnd. destruct Hnd as [Hr Hnd].
  destruct ((user_pk (user r) =? u)
            && (block_pk (block (scheduled_activity r)) =? b));
    [|auto].
  cbn [map]. apply NoDup_cons_iff. split; [|auto].
  rewrite in_map_iff. intros (r' & E & Hin). apply filter_In in Hin.
  apply Hr. rewrite <- E. apply in_map. tauto.
Qed.

(** X16: on a table with unique keys where rows for the same scheduled
    activity are in the same block, every row passes [validate_unique]
    exactly when no user holds two signups in a block. *)
Theorem validate_unique_one_per_block :
  forall db,
    unique_keys (eighthsignup_table db) ->
    same_key_same_block (eighthsignup_table db) ->
    (one_per_block (eighthsignup_table db)
     <-> forall s, In s (eighthsignup_table db) -> validate_unique s db = Valid).
Proof.
  intros db Hk Hc. split.
  - intros H1 s Hs. apply validate_unique_Valid. intros s' Hs' Hpk Hu.
    assert (Hb : block_pk (block (scheduled_activity s'))
                 <> block_pk (block (scheduled_activity s))).
    { intros Hb.
      pose proof (H1 (user_pk (user s))
                     (block_pk (block (scheduled_activity s)))) as Hle.
      assert (2 <= length (signups_in_block (user_pk (user s))
                             (block_pk (block (scheduled_activity s)))
                             (eighthsignup_table db)))%nat; [|lia].
      apply (filter_two _ _ s s'); auto.
      - congruence.
      - now rewrite !Z.eqb_refl.
      - now rewrite Hu, Hb, !Z.eqb_refl. }
    split; [|exact Hb]. intros Hsa. apply Hb. now apply Hc.
  - intros Hv u b.
    destruct (signups_in_block u b (eighthsignup_table db))
      as [|x [|y t]] eqn:F; simpl; try lia.
    exfalso.
    assert (Hx : In x (signups_in_block u b (eighthsignup_table db)))
      by (rewrite F; simpl; auto).
    assert (Hy : In y (signups_in_block u b (eighthsignup_table db)))
      by (rewrite F; simpl; auto).
    apply signups_in_block_In in Hx, Hy.
    destruct Hx as (Hx & Hxu & Hxb), Hy as (Hy & Hyu & Hyb).
    pose proof (signups_in_block_keys u b _ Hk) as Hnd.
    unfold unique_keys in Hnd. rewrite F in Hnd. simpl in Hnd.
    inversion Hnd as [|? ? Hnotin _]; subst.
    pose proof (proj1 (validate_unique_Valid x db) (Hv x Hx) y Hy) as H.
    destruct H as [_ H].
    + intros E. apply Hnotin. simpl. auto.
    + congruence.
    + congruence.
Qed.

Ltac each_row H :=
  simpl in H;
  repeat match type of H with
         | _ \/ _ => destruct H as [<-|H]
         end;
  try (destruct H).

Lemma same_key_same_block_busy_day :
  same_key_same_block (eighthsignup_table Scenario.busy_day).
Proof.
  intros s1 s2 H1 H2.
  change (eighthsignup_table Scenario.busy_day)
    with [{| signup_pk := 1; user := Scenario.alice;
             scheduled_activity := Scenario.chess_in_A;
             after_deadline := false |};
          {| signup_pk := 2; user := Scenario.bob;
             scheduled_activity := Scenario.study_in_A;
             after_deadline := false |};
          {| signup_pk := 3; user := Scenario.alice;
             scheduled_activity := Scenario.study_in_B;
             after_deadline := false |};
          {| signup_pk := 4; user := Scenario.bob;
             scheduled_activity := Scenario.chess_in_B;
             after_deadline := false |}] in H1, H2.
  each_row H1; each_row H2; vm_compute; intros E;
    (reflexivity || discriminate E).
Defined.

Lemma same_key_same_block_double_booked :
  same_key_same_block (eighthsignup_table Scenario.double_booked).
Proof.
  intros s1 s2 H1 H2.
  each_row H1; each_row H2; vm_compute; intros E;
    (reflexivity || discriminate E).
Defined.

Lemma store_ok_busy_day : store_ok Scenario.busy_day.
Proof.
  apply run_calls_ok. apply store_ok_no_signups.
Defined.

(** On the day of the five calls every one of the four signups passes; in
    the store where Alice holds two signups in block A, not every signup
    passes. *)
Lemma validate_unique_one_per_block_witness :
  (forall s, In s (eighthsignup_table Scenario.busy_day) ->
             validate_unique s Scenario.busy_day = Valid)
  /\ ~ (forall s, In s (eighthsignup_table Scenario.double_booked) ->
                  validate_unique s Scenario.double_booked = Valid).
Proof.
  split.
  - apply (validate_unique_one_per_block Scenario.busy_day).
    + exact (proj1 store_ok_busy_day).
    + exact same_key_same_block_busy_day.
    + exact (proj2 store_ok_busy_day).
  - intros H.
    apply (validate_unique_one_per_block Scenario.double_booked) in H.
    + specialize (H 1 1). vm_compute in H. lia.
    + unfold unique_keys. simpl.
      repeat (constructor; [simpl; intuition discriminate|]). constructor.
    + exact same_key_same_block_double_booked.
Defined.

Lemma saved_rows_In e' rows s :
  In s (saved_rows e' rows) -> s = e' \/ In s rows.
Proof.
  unfold saved_rows. rewrite in_map_iff. intros (r & E & Hr).
  destruct (signup_pk r =? signup_pk e'); subst; auto.
Qed.

Lemma add_user_scheduled_activities (P : EighthScheduledActivity -> Prop)
  self usr request force now db :
  (forall s, In s (eighthsignup_table db) -> P (scheduled_activity s)) ->
  P self ->
  forall s,
    In s (eighthsignup_table (snd (add_user self usr request force now db))) ->
    P (scheduled_activity s).
Proof.
  intros Hrows Hself s.
  destruct (add_user_cases self usr request force now db)
    as [(e & E & _)|[E _]]; rewrite E; cbn [snd]; [apply Hrows|].
  rewrite transfer_or_create_eq.
  destruct (signups_in_block _ _ _) as [|e [|e' rest]];
    cbn [snd with_signups eighthsignup_table]; [| |apply Hrows].
  - intros Hin. apply in_app_or in Hin.
    destruct Hin as [Hin|[<-|[]]]; [now apply Hrows|exact Hself].
  - intros Hin. apply saved_rows_In in Hin.
    destruct Hin as [->|Hin]; [exact Hself|now apply Hrows].
Qed.

Lemma run_calls_scheduled_activities (P : EighthScheduledActivity -> Prop)
  calls db :
  (forall s, In s (eighthsignup_table db) -> P (scheduled_activity s)) ->
  (forall c, In c calls -> P (call_self c)) ->
  forall s, In s (eighthsignup_table (run_calls calls db)) ->
            P (scheduled_activity s).
Proof.
  revert db. unfold run_calls.
  induction calls as [|c calls IH]; intros db Hrows Hcalls; cbn [fold_left];
    [exact Hrows|].
  apply IH; [|intros c' Hc'; apply Hcalls; simpl; auto].
  rewrite run_call_eq. apply add_user_scheduled_activities;
    [exact Hrows|apply Hcalls; simpl; auto].
Qed.

(** X17: starting from an empty table, after calls of [add_user] that name
    each scheduled activity in one block, every signup of the table passes
    [validate_unique]. *)
Theorem add_user_rows_validate :
  forall blocks calls s,
    calls_consistent calls ->
    let db := run_calls calls {| eighthblock_table := blocks;
                                 eighthsignup_table := [] |} in
    In s (eighthsignup_table db) -> validate_unique s db = Valid.
Proof.
  intros blocks calls s Hc db Hs.
  pose proof (run_calls_ok calls _ (store_ok_no_signups blocks)) as [Hk H1].
  fold db in Hk, H1.
  assert (Hsa : forall r, In r (eighthsignup_table db) ->
                          exists c, In c calls
                                    /\ call_self c = scheduled_activity r).
  { apply (run_calls_scheduled_activities
             (fun sa => exists c, In c calls /\ call_self c = sa)).
    - intros r [].
    - intros c Hin. exists c. auto. }
  apply validate_unique_Valid. intros s' Hs' Hpk Hu.
  assert (Hb : block_pk (block (scheduled_activity s'))
               <> block_pk (block (scheduled_activity s))).
  { intros Hb.
    pose proof (H1 (user_pk (user s))
                   (block_pk (block (scheduled_activity s)))) as Hle.
    assert (2 <= length (signups_in_block (user_pk (user s))
                           (block_pk (block (scheduled_activity s)))
                           (eighthsignup_table db)))%nat; [|lia].
    apply (filter_two _ _ s s'); auto.
    - congruence.
    - now rewrite !Z.eqb_refl.
    - now rewrite Hu, Hb, !Z.eqb_refl. }
  split; [|exact Hb]. intros Hsa'. apply Hb.
  destruct (Hsa s Hs) as (c & Hcin & Ec).
  destruct (Hsa s' Hs') as (c' & Hcin' & Ec').
  rewrite <- Ec, <- Ec' in Hsa' |- *. now apply Hc.
Qed.

Lemma calls_consistent_busy_calls : calls_consistent Scenario.busy_calls.
Proof.
  intros c1 c2 H1 H2.
  each_row H1; each_row H2; vm_compute; intros E;
    (reflexivity || discriminate E).
Defined.

(** The five calls of the day leave four signups, Alice's first one moved
    to chess club, and each of them passes. *)
Lemma add_user_rows_validate_witness :
  eighthsignup_table Scenario.busy_day
  = [{| signup_pk := 1; user := Scenario.alice;
        scheduled_activity := Scenario.chess_in_A; after_deadline := false |};
     {| signup_pk := 2; user := Scenario.bob;
        scheduled_activity := Scenario.study_in_A; after_deadline := false |};
     {| signup_pk := 3; user := Scenario.alice;
        scheduled_activity := Scenario.study_in_B; after_deadline := false |};
     {| signup_pk := 4; user := Scenario.bob;
        scheduled_activity := Scenario.chess_in_B; after_deadline := false |}]
  /\ Forall (fun s => validate_unique s Scenario.busy_day = Valid)
            (eighthsignup_table Scenario.busy_day).
Proof.
  split; [reflexivity|].
  apply Forall_forall. intros s Hs.
  apply (add_user_rows_validate Scenario.blocks_of_the_week
           Scenario.busy_calls s).
  - exact calls_consistent_busy_calls.
  - exact Hs.
Defined.

(** * Properties of the bus models *)

(** ** [BusTableParser] *)

Lemma append_nil_r (s : string) : (s ++ "")%string = s.
Proof. induction s as [|c s IH]; simpl; congruence. Qed.

Lemma append_assoc (a b c : string) :
  ((a ++ b) ++ c)%string = (a ++ (b ++ c))%string.
Proof. induction a as [|x a IH]; simpl; congruence. Qed.

Lemma split_from_word s word :
  word <> EmptyString ->
  exists t rest,
    Bus.split_from s word = (word ++ t)%string :: rest
    /\ Bus.no_space t = true.
Proof.
  revert word. induction s as [|c s IH]; intros word Hw; simpl.
  - exists EmptyString, []. rewrite append_nil_r.
    destruct word; [congruence|]. auto.
  - destruct (Bus.isspace c) eqn:Hc.
    + exists EmptyString, (Bus.split_from s EmptyString).
      rewrite append_nil_r. destruct word; [congruence|]. auto.
    + destruct (IH (word ++ String c EmptyString)%string) as (t & rest & E & Ht).
      { destruct word; discriminate. }
      exists (String c t), rest. rewrite E, append_assoc. simpl.
      rewrite Hc, Ht. auto.
Qed.

Lemma handle_data_entry self d :
  exists new,
    Bus.handle_data self d
    = Bus.Done {| Bus.data := Bus.data self ++ new;
                  Bus.capture := Bus.capture self |}
    /\ (length new <= 1)%nat
    /\ Forall (fun w => String.prefix "JT-" w = true
                        /\ Bus.no_space w = true) new.
Proof.
  unfold Bus.handle_data.
  destruct (Bus.capture self && String.prefix "JT-" d) eqn:G.
  - apply andb_true_iff in G. destruct G as [_ G].
    destruct d as [|c1 [|c2 [|c3 d]]]; cbn [String.prefix] in G;
      try discriminate;
      try (destruct (Ascii.ascii_dec "J"%char c1); [|discriminate];
           try (destruct (Ascii.ascii_dec "T"%char c2); discriminate);
           discriminate).
    destruct (Ascii.ascii_dec "J"%char c1) as [<-|]; [|discriminate].
    destruct (Ascii.ascii_dec "T"%char c2) as [<-|]; [|discriminate].
    destruct (Ascii.ascii_dec "-"%char c3) as [<-|]; [|discriminate].
    unfold Bus.split. cbn [Bus.split_from].
    change (Bus.isspace "J"%char) with false.
    change (Bus.isspace "T"%char) with false.
    change (Bus.isspace "-"%char) with false. cbn [String.append].
    destruct (split_from_word d "JT-") as (t & rest & E & Ht); [discriminate|].
    rewrite E. exists [("JT-" ++ t)%string].
    split; [reflexivity|]. split; [simpl; lia|].
    constructor; [|constructor]. split; [|exact Ht].
    cbn [String.append String.prefix].
    repeat (destruct (Ascii.ascii_dec _ _); [|congruence]).
    now destruct t.
  - exists []. rewrite app_nil_r. destruct self. simpl. auto.
Qed.

(** X18: whatever the document, the handlers never raise, and the parser's
    [data] only grows: it keeps the entries it had and is given at most one
    entry for each text of the document, every one of which starts with
    ["JT-"] and holds no whitespace. *)
Theorem bus_parser_entries :
  forall self cs,
    exists self' new,
      Bus.handle_all self cs = Bus.Done self'
      /\ Bus.data self' = Bus.data self ++ new
      /\ (length new <= length (filter Bus.is_data cs))%nat
      /\ Forall (fun w => String.prefix "JT-" w = true
                          /\ Bus.no_space w = true) new.
Proof.
  intros self cs. revert self.
  induction cs as [|c cs IH]; intros self; cbn [Bus.handle_all].
  - exists self, []. rewrite app_nil_r. simpl. auto.
  - destruct c as [tag attrs|tag|d]; cbn [Bus.handle filter Bus.is_data].
    + destruct (IH (Bus.handle_starttag self tag attrs))
        as (self' & new & E & Hd & Hl & Hf).
      exists self', new. rewrite E, Hd. split; [reflexivity|].
      split; [|auto]. unfold Bus.handle_starttag.
      now destruct (String.eqb tag "td").
    + destruct (IH (Bus.handle_endtag self tag))
        as (self' & new & E & Hd & Hl & Hf).
      exists self', new. rewrite E, Hd. split; [reflexivity|].
      split; [|auto]. unfold Bus.handle_endtag.
      now destruct (String.eqb tag "td").
    + destruct (handle_data_entry self d) as (new1 & E1 & Hl1 & Hf1).
      rewrite E1.
      destruct (IH {| Bus.data := Bus.data self ++ new1;
                      Bus.capture := Bus.capture self |})
        as (self' & new & E & Hd & Hl & Hf).
      exists self', (new1 ++ new). rewrite E, Hd. cbn [Bus.data].
      split; [reflexivity|]. split; [now rewrite app_assoc|].
      split; [rewrite length_app; simpl; lia|].
      apply Forall_app. auto.
Qed.

(** X19: outside a cell the parser collects nothing: when [capture] is off,
    calls among which no ["td"] start tag occurs leave the parser as it
    is. *)
Theorem bus_parser_outside_cell :
  forall self cs,
    Bus.capture self = false ->
    Forall (fun c => Bus.opens_cell c = false) cs ->
    Bus.handle_all self cs = Bus.Done self.
Proof.
  intros [d cap] cs Hc Hcs. simpl in Hc. subst cap.
  induction Hcs as [|c cs Hopen _ IH]; cbn [Bus.handle_all]; [reflexivity|].
  destruct c as [tag attrs|tag|txt]; cbn [Bus.handle].
  - simpl in Hopen. unfold Bus.handle_starttag. rewrite Hopen. exact IH.
  - unfold Bus.handle_endtag. cbn [Bus.data].
    destruct (String.eqb tag "td"); exact IH.
  - unfold Bus.handle_data. cbn [Bus.capture andb]. exact IH.
Qed.

Lemma bus_parser_outside_cell_witness :
  Bus.handle_all Bus.init
    [Bus.Starttag "tr" []; Bus.Data "JT-24 late"; Bus.Endtag "td";
     Bus.Data "JT-7"]
  = Bus.Done Bus.init.
Proof.
  apply bus_parser_outside_cell; [reflexivity|].
  repeat constructor.
Defined.

(** ** [Route.reset_status] *)

(** X20: [reset_status] fails exactly when the table has no row of the key
    of the route.  Otherwise it keeps the key, name and bus number of every
    row as stored, whatever the instance holds, leaves the rows of other
    keys as they are, and sets the status of the rows of the key to ["o"]
    and their space to the empty string. *)
Theorem reset_status_writes_two_columns :
  forall self table,
    match Bus.reset_status self table with
    | Bus.Failed e =>
        e = Bus.DatabaseError
        /\ forall r, In r table -> Bus.route_pk r <> Bus.route_pk self
    | Bus.Done (self', table') =>
        (exists r, In r table /\ Bus.route_pk r = Bus.route_pk self)
        /\ Bus.status self' = "o"%string /\ Bus.space self' = ""%string
        /\ map Bus.route_pk table' = map Bus.route_pk table
        /\ map Bus.route_name table' = map Bus.route_name table
        /\ map Bus.bus_number table' = map Bus.bus_number table
        /\ (forall r, In r table' ->
                      if Bus.route_pk r =? Bus.route_pk self
                      then Bus.status r = "o"%string
                           /\ Bus.space r = ""%string
                      else In r table)
    end.
Proof.
  intros self table. unfold Bus.reset_status. cbn [Bus.route_pk].
  destruct (existsb _ table) eqn:E.
  - apply existsb_exists in E. destruct E as (r0 & Hr0 & E0).
    apply Z.eqb_eq in E0.
    split; [exists r0; auto|]. split; [reflexivity|]. split; [reflexivity|].
    split; [|split; [|split]].
    + rewrite map_map. apply map_ext. intros r.
      now destruct (Bus.route_pk r =? Bus.route_pk self).
    + rewrite map_map. apply map_ext. intros r.
      now destruct (Bus.route_pk r =? Bus.route_pk self).
    + rewrite map_map. apply map_ext. intros r.
      now destruct (Bus.route_pk r =? Bus.route_pk self).
    + intros r Hr. apply in_map_iff in Hr. destruct Hr as (r' & <- & Hr').
      destruct (Bus.route_pk r' =? Bus.route_pk self) eqn:K;
        cbn [Bus.route_pk Bus.status Bus.space]; rewrite K; auto.
  - split; [reflexivity|]. intros r Hr Heq.
    assert (existsb (fun r => Bus.route_pk r =? Bus.route_pk self) table = true);
      [|congruence].
    apply existsb_exists. exists r. split; [exact Hr|now apply Z.eqb_eq].
Qed.

(** ** [BusAnnouncement] *)

Lemma announcement_save_single self m :
  Bus.save self [{| Bus.announcement_pk := 1; Bus.message := m |}]
  = [{| Bus.announcement_pk := 1; Bus.message := Bus.message self |}].
Proof. reflexivity. Qed.

Lemma last_nonempty {A} (b : A) l d1 d2 :
  last (b :: l) d1 = last (b :: l) d2.
Proof.
  revert b. induction l as [|c l IH]; intros b; [reflexivity|].
  change (last (c :: l) d1 = last (c :: l) d2). apply IH.
Qed.

Lemma announcement_saves self saves :
  fold_left (fun t a => Bus.save a t) saves
    [{| Bus.announcement_pk := 1; Bus.message := Bus.message self |}]
  = [{| Bus.announcement_pk := 1;
        Bus.message := Bus.message (last saves self) |}].
Proof.
  revert self. induction saves as [|a saves IH]; intros self;
    [reflexivity|].
  cbn [fold_left]. rewrite announcement_save_single, IH.
  destruct saves as [|b saves]; [reflexivity|].
  now rewrite (last_nonempty b saves a self).
Qed.

(** X21: there is one announcement: starting from the empty table, after
    any saves of announcements the table holds a single row, of key 1, with
    the message of the last one saved, and [object] returns that row and
    writes nothing. *)
Theorem announcement_is_single :
  forall (saves : list Bus.BusAnnouncement) (a : Bus.BusAnnouncement),
    let table := fold_left (fun t x => Bus.save x t) (saves ++ [a]) [] in
    let row := {| Bus.announcement_pk := 1; Bus.message := Bus.message a |} in
    table = [row] /\ Bus.object table = (row, table).
Proof.
  intros saves a table row.
  assert (E : table = [row]).
  { unfold table, row. destruct saves as [|b saves]; [reflexivity|].
    cbn [app fold_left].
    change (Bus.save b [])
      with [{| Bus.announcement_pk := 1; Bus.message := Bus.message b |}].
    rewrite announcement_saves, last_last. reflexivity. }
  split; [exact E|]. rewrite E. reflexivity.
Qed.

(** X22: [object] always returns a row of the table it leaves, creates one
    only on the empty table, and asked again returns the same row and
    writes nothing. *)
Theorem announcement_object_stable :
  forall table,
    let (a, table') := Bus.object table in
    In a table'
    /\ (table <> [] -> table' = table)
    /\ Bus.object table' = (a, table').
Proof.
  intros table. unfold Bus.object, Bus.first.
  destruct (order_by _ table) as [|a rest] eqn:E.
  - assert (table = []).
    { destruct table as [|x t]; [reflexivity|].
      assert (In x (order_by (fun a b : Bus.BusAnnouncement =>
                                Bus.announcement_pk a <=? Bus.announcement_pk b)
                             (x :: t)))
        by (apply order_by_In; simpl; auto).
      rewrite E in H. destruct H. }
    subst table. cbn. split; [auto|]. split; [congruence|reflexivity].
  - rewrite E. split; [|split; [reflexivity|reflexivity]].
    apply (order_by_In (fun a b : Bus.BusAnnouncement =>
                          Bus.announcement_pk a <=? Bus.announcement_pk b)).
    rewrite E. simpl. auto.
Qed.
